(** * node-expose-sspi: the [auth] middleware (src/auth.ts)

    A shallow embedding of the SPNEGO/Negotiate authentication middleware:
    the construction of the middleware from its options, the renewal of the
    server credential, and the per-request negotiation step with its
    try/catch and its calls to the security provider, to the context-handle
    manager and to the HTTP response. *)

From Stdlib Require Import ZArith String Ascii List Bool Lia.
From stdpp Require Import gmap strings list fin_maps.

Local Open Scope string_scope.
Local Open Scope Z_scope.
Local Open Scope list_scope.

(** ** Data model *)

(** Opaque native handles, timestamps (milliseconds, as [Date] compares),
    binary buffers and correlation keys. *)
Definition CredHandle := nat.
Definition CtxtHandle := nat.
Definition Time := Z.
Definition ArrayBuffer := list Byte.byte.
Definition Key := string.

(** A thrown JavaScript value. *)
Inductive Exn :=
| Error (message : string).

(** The value built by [createError(status, message)] of http-errors. *)
Record HttpError := createError { status : Z; message : string }.

(** An optional boolean property [p?: boolean] of an object: the object
    has no such property, or has it with the value [undefined], or has it
    with a boolean. *)
Inductive Property :=
| Absent
| Undefined
| Bool (b : bool).

(** [AuthOptions] of src/interfaces.ts: every property is optional. *)
Record AuthOptions := {
  useGroups : Property;
  useActiveDirectory : Property;
  useOwner : Property;
  useCookies : Property
}.

(** JavaScript truthiness of what reading the property gives: [undefined]
    for an absent property as for one that holds [undefined]. *)
Definition truthy (p : Property) : bool :=
  match p with
  | Bool true => true
  | _ => false
  end.

(** [Object.assign(target, source)]: every property the source has is
    copied over the target's, whatever its value, [undefined] included; a
    property the source does not have leaves the target's as it is. *)
Definition assign_prop (target source : Property) : Property :=
  match source with
  | Absent => target
  | _ => source
  end.

Definition Object_assign (target source : AuthOptions) : AuthOptions :=
  {| useGroups := assign_prop (useGroups target) (useGroups source);
     useActiveDirectory :=
       assign_prop (useActiveDirectory target) (useActiveDirectory source);
     useOwner := assign_prop (useOwner target) (useOwner source);
     useCookies := assign_prop (useCookies target) (useCookies source) |}.

(** The literal [{}] and the defaults written in [auth]. *)
Definition empty_options : AuthOptions :=
  {| useGroups := Absent; useActiveDirectory := Absent;
     useOwner := Absent; useCookies := Absent |}.

Definition default_opts : AuthOptions :=
  {| useGroups := Bool true; useActiveDirectory := Bool true;
     useOwner := Bool false; useCookies := Bool false |}.

(** Options for examples: [{useCookies: true}], the same with the
    directory switched on, switched off, and given as [undefined]. *)
Definition cookies_only : AuthOptions :=
  {| useGroups := Absent; useActiveDirectory := Absent;
     useOwner := Absent; useCookies := Bool true |}.

Definition cookies_with_directory : AuthOptions :=
  {| useGroups := Absent; useActiveDirectory := Bool true;
     useOwner := Absent; useCookies := Bool true |}.

Definition cookies_without_directory : AuthOptions :=
  {| useGroups := Absent; useActiveDirectory := Bool false;
     useOwner := Absent; useCookies := Bool true |}.

Definition cookies_with_undefined_directory : AuthOptions :=
  {| useGroups := Absent; useActiveDirectory := Undefined;
     useOwner := Absent; useCookies := Bool true |}.

Definition conflict_message : string :=
  "Sorry. Limitation... Cannot have both useActiveDirectory=true and useCookies=true... because it will crash when calling ActiveDirectory.".

Definition unexpected_message : string :=
  "Unexpected error while doing SSO. Please contact your system administrator.".

(** [User] of src/interfaces.ts and the JSON attached to [req.sso]. *)
Record User := {
  name : option string;
  sid : option string;
  displayName : option string;
  domain : option string;
  groups : option (list string);
  adUser : option (list (string * string))
}.

Record SSOJson := {
  sso_method : string;
  sso_user : User;
  sso_owner : option User
}.

(** The provider's buffers and security contexts (lib/api). *)
Record SecBufferDesc := {
  ulVersion : Z;
  buffers : list ArrayBuffer
}.

Record ClientSecurityContext := {
  client_SecBufferDesc : SecBufferDesc
}.

Record AcceptSecurityContextInput := {
  in_credential : CredHandle;
  clientSecurityContext : ClientSecurityContext;
  in_contextHandle : option CtxtHandle
}.

Record ServerSecurityContext := {
  contextHandle : CtxtHandle;
  SECURITY_STATUS : string;
  server_SecBufferDesc : SecBufferDesc
}.

Record CredentialWithExpiry := {
  cwe_credential : CredHandle;
  cwe_tsExpiry : Time
}.

(** [buffers[0]]: an absent first buffer is [undefined], which the codec
    and the dump read as a buffer of length zero. *)
Definition buffer0 (d : SecBufferDesc) : ArrayBuffer :=
  match buffers d with
  | b :: _ => b
  | [] => []
  end.

(** The incoming message, as far as the middleware reads it. *)
Record IncomingMessage := {
  authorization : option string;
  cookie : option Key
}.

(** The server response, as far as the middleware writes it. *)
Record ServerResponse := {
  statusCode : Z;
  headers : gmap string string;
  body : string;
  ended : bool
}.

Definition fresh_response : ServerResponse :=
  {| statusCode := 200; headers := ∅; body := ""; ended := false |}.

(** ** The context-handle manager *)

(** Modelled from the spec: the class [ServerContextHandleManager]
    (src/ServerContextHandleManager.ts), of which only the calls made by
    [auth] are in the sources.  The table maps a correlation key to the
    handle of the negotiation in flight for it (a PENDING handle); the slot
    of a key is free when the table has no entry for it.  The key in use is
    the one of the underlying connection unless cookie mode selects the
    correlation token of the request.  The spec's [complete(key)] is split
    in the source between [sspi.DeleteSecurityContext], called by [auth],
    and [release()], which frees the slot. *)
Record ServerContextHandleManager := {
  delayMax : Z;
  table : gmap Key CtxtHandle;
  key : Key
}.

Definition connection_key : Key := "connection".

Definition new_ServerContextHandleManager (delay : Z) : ServerContextHandleManager :=
  {| delayMax := delay; table := ∅; key := connection_key |}.

Definition mgr_getServerContextHandle (m : ServerContextHandleManager) : option CtxtHandle :=
  table m !! key m.

Definition mgr_set (h : CtxtHandle) (m : ServerContextHandleManager) : ServerContextHandleManager :=
  {| delayMax := delayMax m; table := <[key m := h]> (table m); key := key m |}.

Definition mgr_release (m : ServerContextHandleManager) : ServerContextHandleManager :=
  {| delayMax := delayMax m; table := delete (key m) (table m); key := key m |}.

Definition mgr_select (k : Key) (m : ServerContextHandleManager) : ServerContextHandleManager :=
  {| delayMax := delayMax m; table := table m; key := k |}.

Definition slot_free (k : Key) (m : ServerContextHandleManager) : bool :=
  match table m !! k with
  | None => true
  | Some _ => false
  end.

Definition pending (m : ServerContextHandleManager) (k : Key) (h : CtxtHandle) : Prop :=
  table m !! k = Some h.

(** ** Observable events *)

Inductive ManagerCall :=
| SetCookieMode
| WaitForReleased
| GetServerContextHandle
| SetHandle (h : CtxtHandle)
| Release.

Inductive Event :=
| EvFreeCredentialsHandle (c : CredHandle)
| EvAcquireCredentialsHandle (packageName : string)
| EvAcceptSecurityContext (input : AcceptSecurityContextInput)
| EvDeleteSecurityContext (h : CtxtHandle)
| EvSSOLoad (h : CtxtHandle)
| EvSchManager (call : ManagerCall)
| EvStatusCode (code : Z)
| EvSetHeader (name value : string)
| EvEnd
| EvConsoleError (e : Exn)
| EvNext (err : option HttpError).

(** ** The world a request handler runs in *)

(** The closure variables of [auth] ([credential], [tsExpiry],
    [schManager]), the clock, the mutable parts of the request and of the
    response, and the log of calls made so far. *)
Record World := {
  now : Time;
  credential : CredHandle;
  tsExpiry : Time;
  schManager : ServerContextHandleManager;
  req_sso : option SSOJson;
  res : ServerResponse;
  trace : list Event;
  debugLog : list string
}.

Definition with_credential (c : CredHandle) (w : World) : World :=
  {| now := now w; credential := c; tsExpiry := tsExpiry w;
     schManager := schManager w; req_sso := req_sso w; res := res w;
     trace := trace w; debugLog := debugLog w |}.

Definition with_tsExpiry (t : Time) (w : World) : World :=
  {| now := now w; credential := credential w; tsExpiry := t;
     schManager := schManager w; req_sso := req_sso w; res := res w;
     trace := trace w; debugLog := debugLog w |}.

Definition with_schManager (m : ServerContextHandleManager) (w : World) : World :=
  {| now := now w; credential := credential w; tsExpiry := tsExpiry w;
     schManager := m; req_sso := req_sso w; res := res w;
     trace := trace w; debugLog := debugLog w |}.

Definition with_req_sso (s : option SSOJson) (w : World) : World :=
  {| now := now w; credential := credential w; tsExpiry := tsExpiry w;
     schManager := schManager w; req_sso := s; res := res w;
     trace := trace w; debugLog := debugLog w |}.

Definition with_res (r : ServerResponse) (w : World) : World :=
  {| now := now w; credential := credential w; tsExpiry := tsExpiry w;
     schManager := schManager w; req_sso := req_sso w; res := r;
     trace := trace w; debugLog := debugLog w |}.

Definition log_event (ev : Event) (w : World) : World :=
  {| now := now w; credential := credential w; tsExpiry := tsExpiry w;
     schManager := schManager w; req_sso := req_sso w; res := res w;
     trace := trace w ++ [ev]; debugLog := debugLog w |}.

Definition log_debug (msg : string) (w : World) : World :=
  {| now := now w; credential := credential w; tsExpiry := tsExpiry w;
     schManager := schManager w; req_sso := req_sso w; res := res w;
     trace := trace w; debugLog := debugLog w ++ [msg] |}.

(** ** The handler monad: state, exceptions and suspension *)

(** A handler either returns, or throws, or is suspended on the promise of
    [waitForReleased] for a key, to be resumed in the world of that later
    time. *)
Inductive Result (A : Type) :=
| Returned (a : A) (w : World)
| Thrown (e : Exn) (w : World)
| Awaiting (k : Key) (w : World) (resume : World -> Result A).

Arguments Returned {A} a w.
Arguments Thrown {A} e w.
Arguments Awaiting {A} k w resume.

Definition M (A : Type) := World -> Result A.

Fixpoint bind_result {A B} (r : Result A) (f : A -> M B) : Result B :=
  match r with
  | Returned a w => f a w
  | Thrown e w => Thrown e w
  | Awaiting k w resume => Awaiting k w (fun w' => bind_result (resume w') f)
  end.

(** [try { ... } catch (e) { ... }]: a suspension inside the block keeps
    the handler around its continuation. *)
Fixpoint catch_result {A} (r : Result A) (handler : Exn -> M A) : Result A :=
  match r with
  | Returned a w => Returned a w
  | Thrown e w => handler e w
  | Awaiting k w resume => Awaiting k w (fun w' => catch_result (resume w') handler)
  end.

Definition ret {A} (a : A) : M A := fun w => Returned a w.
Definition throw {A} (e : Exn) : M A := fun w => Thrown e w.
Definition bind {A B} (m : M A) (f : A -> M B) : M B :=
  fun w => bind_result (m w) f.
Definition try_catch {A} (m : M A) (handler : Exn -> M A) : M A :=
  fun w => catch_result (m w) handler.

#[global] Instance M_ret : MRet M := @ret.
#[global] Instance M_bind : MBind M := fun A B f m => bind m f.

Definition gets {A} (f : World -> A) : M A := fun w => Returned (f w) w.
Definition modify (f : World -> World) : M unit := fun w => Returned tt (f w).
Definition emit (ev : Event) : M unit := modify (log_event ev).
Definition debug (msg : string) : M unit := modify (log_debug msg).

(** A call into native or asynchronous code: logged, then settled. *)
Definition call {A} (ev : Event) (outcome : Exn + A) : M A :=
  fun w =>
    match outcome with
    | inl e => Thrown e (log_event ev w)
    | inr a => Returned a (log_event ev w)
    end.

(** The scheduler wakes a suspended handler once the slot it waits for is
    free. *)
Definition wake {A} (r : Result A) (w' : World) : Result A :=
  match r with
  | Awaiting k w resume =>
      if slot_free k (schManager w') then resume w' else Awaiting k w resume
  | _ => r
  end.

(** ** The environment of the middleware *)

(** The external collaborators: the security provider [sspi] (lib/api),
    the session assembler's queries, the base64 codec of
    base64-arraybuffer, [hexDump] of src/misc, and the choice of a new
    correlation token in cookie mode.  The provider's step either returns a
    security context with its status or fails unexpectedly by throwing;
    acquiring a credential returns the handle with its expiry; freeing a
    credential and deleting a context return nothing, and are visible as
    events only. *)
Record Environment := {
  sspi_AcquireCredentialsHandle : string -> CredentialWithExpiry;
  sspi_AcceptSecurityContext : AcceptSecurityContextInput -> Exn + ServerSecurityContext;
  sso_load : CtxtHandle -> AuthOptions -> User * option User;
  decode : string -> ArrayBuffer;
  encode : ArrayBuffer -> string;
  hexDump : ArrayBuffer -> string;
  issueToken : ServerContextHandleManager -> Key;
  cookieName : string
}.

(** ** JavaScript string operations used by the middleware *)

Definition startsWith (s p : string) : bool := String.prefix p s.

(** [s.substring(n)]: from index [n] to the end. *)
Definition substring_from (n : nat) (s : string) : string :=
  String.substring n (String.length s - n)%nat s.

(** [!authorization]: the header is absent or the empty string. *)
Definition falsy (h : option string) : bool :=
  match h with
  | None => true
  | Some s => String.eqb s ""
  end.

(** The diagnostic label of the mechanism, from the token's first
    characters. *)
Definition method_of (token : string) : string :=
  if startsWith token "YII" then "Kerberos" else "NTLM".

(** ** Construction of the middleware *)

(** What [auth(options)] leaves in its closure. *)
Record Middleware := {
  opts : AuthOptions;
  initial_credential : CredHandle;
  initial_tsExpiry : Time;
  initial_schManager : ServerContextHandleManager
}.

(** How the body of the [try] block is left: by falling off its end or by
    a [return] statement. *)
Inductive Completion :=
| FallThrough
| ReturnStmt.

Section Auth.

Variable env : Environment.

(** [auth(options)]: the provider calls made, and either the thrown error
    or the middleware. *)
Definition auth (options : AuthOptions) : list Event * (Exn + Middleware) :=
  let opts := Object_assign default_opts options in
  if truthy (useActiveDirectory opts) && truthy (useCookies opts) then
    ([], inl (Error conflict_message))
  else
    let acquired := sspi_AcquireCredentialsHandle env "Negotiate" in
    ([EvAcquireCredentialsHandle "Negotiate"],
     inr {| opts := opts;
            initial_credential := cwe_credential acquired;
            initial_tsExpiry := cwe_tsExpiry acquired;
            initial_schManager := new_ServerContextHandleManager 10000 |}).

(** The world in which the first request of a middleware is handled. *)
Definition first_world (mw : Middleware) (clock : Time) (events : list Event) : World :=
  {| now := clock;
     credential := initial_credential mw;
     tsExpiry := initial_tsExpiry mw;
     schManager := initial_schManager mw;
     req_sso := None;
     res := fresh_response;
     trace := events;
     debugLog := [] |}.

(** ** The operations of a request handler *)

Definition checkCredentials : M unit :=
  w ← gets id;
  if tsExpiry w <? now w then
    emit (EvFreeCredentialsHandle (credential w));;
    emit (EvAcquireCredentialsHandle "Negotiate");;
    let renewed := sspi_AcquireCredentialsHandle env "Negotiate" in
    modify (with_credential (cwe_credential renewed));;
    modify (with_tsExpiry (cwe_tsExpiry renewed))
  else mret tt.

Definition res_statusCode (code : Z) : M unit :=
  emit (EvStatusCode code);;
  modify (fun w =>
    with_res {| statusCode := code; headers := headers (res w);
                body := body (res w); ended := ended (res w) |} w).

Definition res_setHeader (name value : string) : M unit :=
  emit (EvSetHeader name value);;
  modify (fun w =>
    with_res {| statusCode := statusCode (res w);
                headers := <[name := value]> (headers (res w));
                body := body (res w); ended := ended (res w) |} w).

(** [res.end()] without data. *)
Definition res_end : M unit :=
  emit EvEnd;;
  modify (fun w =>
    with_res {| statusCode := statusCode (res w); headers := headers (res w);
                body := body (res w); ended := true |} w).

Definition next (err : option HttpError) : M unit := emit (EvNext err).

Definition console_error (e : Exn) : M unit := emit (EvConsoleError e).

(** Modelled from the spec: the methods of [ServerContextHandleManager]
    called by [auth].  In cookie mode the orchestrator reads the
    correlation token back from the request's cookie, and issues one in a
    cookie of the response when the request has none. *)
Definition schManager_setCookieMode (req : IncomingMessage) : M unit :=
  emit (EvSchManager SetCookieMode);;
  match cookie req with
  | Some k => modify (fun w => with_schManager (mgr_select k (schManager w)) w)
  | None =>
      m ← gets schManager;
      modify (with_schManager (mgr_select (issueToken env m) m));;
      res_setHeader "Set-Cookie" (cookieName env +:+ "=" +:+ issueToken env m)
  end.

Definition schManager_waitForReleased : M unit :=
  fun w =>
    let w1 := log_event (EvSchManager WaitForReleased) w in
    let k := key (schManager w1) in
    if slot_free k (schManager w1) then Returned tt w1
    else Awaiting k w1 (fun w' => Returned tt w').

Definition schManager_getServerContextHandle : M (option CtxtHandle) :=
  emit (EvSchManager GetServerContextHandle);;
  gets (fun w => mgr_getServerContextHandle (schManager w)).

Definition schManager_set (h : CtxtHandle) : M unit :=
  emit (EvSchManager (SetHandle h));;
  modify (fun w => with_schManager (mgr_set h (schManager w)) w).

Definition schManager_release : M unit :=
  emit (EvSchManager Release);;
  modify (fun w => with_schManager (mgr_release (schManager w)) w).

(** A native call on a handle that is [undefined] throws. *)
Definition defined (sch : option CtxtHandle) : M CtxtHandle :=
  match sch with
  | Some h => mret h
  | None => throw (Error "TypeError: undefined context handle")
  end.

(** Modelled from the spec: the class [SSO] (src/SSO.ts), the session
    assembler.  [new SSO(sch, method)] and [setOptions(opts)] record their
    arguments, [load()] extracts the identity from the completed handle
    and runs the enabled enrichments, a failed enrichment leaving its field
    out (its promise is modelled by its settlement), and [getJSON()]
    returns the descriptor, in which the mechanism label is a field. *)
Definition SSO_load_getJSON (sch : option CtxtHandle) (method : string)
    (options : AuthOptions) : M SSOJson :=
  h ← defined sch;
  emit (EvSSOLoad h);;
  let loaded := sso_load env h options in
  mret {| sso_method := method; sso_user := fst loaded; sso_owner := snd loaded |}.

(** [sspi.DeleteSecurityContext(sch)] *)
Definition sspi_Delete (sch : option CtxtHandle) : M unit :=
  h ← defined sch;
  emit (EvDeleteSecurityContext h).

(** ** The middleware returned by [auth] *)

(** The first statements of the [try] block, up to the reading of the
    header: the check of the credential and the selection of cookie mode. *)
Definition prelude (opts : AuthOptions) (req : IncomingMessage) : M unit :=
  checkCredentials;;
  if truthy (useCookies opts) then schManager_setCookieMode req else mret tt.

(** [if (!authorization) { ... return res.end(); }] *)
Definition no_authorization : M Completion :=
  debug "no authorization";;
  schManager_waitForReleased;;
  debug "schManager released";;
  res_statusCode 401;;
  res_setHeader "WWW-Authenticate" "Negotiate";;
  res_end;;
  mret ReturnStmt.

(** [if (!authorization.startsWith('Negotiate ')) { return next(...); }] *)
Definition malformed (authorization : string) : M Completion :=
  next (Some (createError 400 ("Malformed authentication token " +:+ authorization)));;
  mret ReturnStmt.

(** The input of the provider's step for a decoded token. *)
Definition accept_input (credential : CredHandle) (buffer : ArrayBuffer)
    (serverContextHandle : option CtxtHandle) : AcceptSecurityContextInput :=
  {| in_credential := credential;
     clientSecurityContext :=
       {| client_SecBufferDesc := {| ulVersion := 0; buffers := [buffer] |} |};
     in_contextHandle := serverContextHandle |}.

(** The value of the response header for the provider's output token. *)
Definition negotiate_header (ssc : ServerSecurityContext) : string :=
  "Negotiate " +:+ encode env (buffer0 (server_SecBufferDesc ssc)).

(** [if (SECURITY_STATUS === 'SEC_I_CONTINUE_NEEDED') { ... return res.end(); }] *)
Definition continue_needed (ssc : ServerSecurityContext) : M Completion :=
  res_statusCode 401;;
  res_setHeader "WWW-Authenticate" (negotiate_header ssc);;
  res_end;;
  mret ReturnStmt.

(** [if (SECURITY_STATUS === 'SEC_E_OK') { ... }] *)
Definition completed (opts : AuthOptions) (method : string)
    (ssc : ServerSecurityContext) : M Completion :=
  res_setHeader "WWW-Authenticate" (negotiate_header ssc);;
  sch ← schManager_getServerContextHandle;
  json ← SSO_load_getJSON sch method opts;
  modify (with_req_sso (Some json));;
  sspi_Delete sch;;
  schManager_release;;
  mret FallThrough.

(** The statements after the two checks of the header: the provider's step
    on the decoded token and the branches on its status. *)
Definition negotiate (opts : AuthOptions) (authorization : string) : M Completion :=
  let token := substring_from (String.length "Negotiate ") authorization in
  let method := method_of token in
  debug ("SPNEGO token: " +:+ method);;
  let buffer := decode env token in
  credential ← gets credential;
  serverContextHandle ← schManager_getServerContextHandle;
  let input := accept_input credential buffer serverContextHandle in
  debug "input";;
  debug (hexDump env buffer);;
  serverSecurityContext ← call (EvAcceptSecurityContext input)
                               (sspi_AcceptSecurityContext env input);
  debug "serverSecurityContext";;
  schManager_set (contextHandle serverSecurityContext);;
  debug (hexDump env (buffer0 (server_SecBufferDesc serverSecurityContext)));;
  if String.eqb (SECURITY_STATUS serverSecurityContext) "SEC_I_CONTINUE_NEEDED" then
    continue_needed serverSecurityContext
  else if String.eqb (SECURITY_STATUS serverSecurityContext) "SEC_E_OK" then
    completed opts method serverSecurityContext
  else mret FallThrough.

(** The body of the [try] block. *)
Definition try_block (opts : AuthOptions) (req : IncomingMessage) : M Completion :=
  prelude opts req;;
  if falsy (authorization req) then no_authorization
  else
    let authorization := default "" (authorization req) in
    if negb (startsWith authorization "Negotiate ") then malformed authorization
    else negotiate opts authorization.

(** The [catch] block. *)
Definition catch_block (e : Exn) : M Completion :=
  console_error e;;
  next (Some (createError 400 unexpected_message));;
  mret FallThrough.

(** The asynchronous function returned by [auth]: the [try]/[catch], then
    the trailing [next()] unless the block was left by [return]. *)
Definition middleware (opts : AuthOptions) (req : IncomingMessage) : M unit :=
  completion ← try_catch (try_block opts req) catch_block;
  match completion with
  | ReturnStmt => mret tt
  | FallThrough => next None
  end.

(** The correlation key the manager uses for a request: in cookie mode the
    token of the request's cookie, or a newly issued one; otherwise the key
    it already has. *)
Definition selected_key (opts : AuthOptions) (req : IncomingMessage)
    (m : ServerContextHandleManager) : Key :=
  if truthy (useCookies opts) then
    match cookie req with
    | Some k => k
    | None => issueToken env m
    end
  else key m.

(** ** Worlds along the negotiation *)

(** The token of a well-formed header and the input of the provider's
    step for it, in the world in which the header is read. *)
Definition token_of (authorization : string) : string :=
  substring_from (String.length "Negotiate ") authorization.

Definition step_input (authorization : string) (w : World) : AcceptSecurityContextInput :=
  accept_input (credential w) (decode env (token_of authorization))
    (mgr_getServerContextHandle (schManager w)).

(** The world in which the provider's step returns or throws, and the one
    in which its status is read. *)
Definition at_step (authorization : string) (w : World) : World :=
  log_event (EvAcceptSecurityContext (step_input authorization w))
    (log_debug (hexDump env (decode env (token_of authorization)))
       (log_debug "input"
          (log_event (EvSchManager GetServerContextHandle)
             (log_debug ("SPNEGO token: " +:+ method_of (token_of authorization)) w)))).

Definition after_step (ssc : ServerSecurityContext) (w : World) : World :=
  log_debug (hexDump env (buffer0 (server_SecBufferDesc ssc)))
    (with_schManager (mgr_set (contextHandle ssc) (schManager w))
       (log_event (EvSchManager (SetHandle (contextHandle ssc)))
          (log_debug "serverSecurityContext" w))).

End Auth.

(** ** Reading the log *)

(** The arguments of the calls to [next], in order. *)
Definition nexts (tr : list Event) : list (option HttpError) :=
  omap (fun ev => match ev with EvNext err => Some err | _ => None end) tr.

(** The handles passed to [sspi.DeleteSecurityContext], in order. *)
Definition deletions (tr : list Event) : list CtxtHandle :=
  omap (fun ev => match ev with EvDeleteSecurityContext h => Some h | _ => None end) tr.

(** The calls to [schManager.release()]. *)
Definition releases (tr : list Event) : nat :=
  length (omap (fun ev => match ev with
                          | EvSchManager Release => Some tt
                          | _ => None
                          end) tr).

(** Some event satisfying [first] is followed, later in the log, by one
    satisfying [second]. *)
Fixpoint occurs_before (first second : Event -> bool) (tr : list Event) : bool :=
  match tr with
  | [] => false
  | ev :: rest =>
      (first ev && existsb second rest) || occurs_before first second rest
  end.

Definition is_acquire (ev : Event) : bool :=
  match ev with
  | EvAcquireCredentialsHandle _ => true
  | _ => false
  end.

Definition is_free_of (c : CredHandle) (ev : Event) : bool :=
  match ev with
  | EvFreeCredentialsHandle c' => Nat.eqb c c'
  | _ => false
  end.

(** The token carried by a [WWW-Authenticate: Negotiate <token>] header. *)
Definition continuation_token (r : ServerResponse) : option string :=
  match headers r !! "WWW-Authenticate" with
  | Some v =>
      if startsWith v "Negotiate " then
        Some (substring_from (String.length "Negotiate ") v)
      else None
  | None => None
  end.

(** The response carries the challenge that advertises the mechanism:
    status 401, [WWW-Authenticate: Negotiate], ended without a body written
    by the middleware. *)
Definition challenged (before after : World) : Prop :=
  trace after =
    trace before ++ [EvStatusCode 401; EvSetHeader "WWW-Authenticate" "Negotiate"; EvEnd] /\
  statusCode (res after) = 401 /\
  headers (res after) !! "WWW-Authenticate" = Some "Negotiate" /\
  body (res after) = body (res before) /\
  ended (res after) = true /\
  schManager after = schManager before.

(** The world in which the next request of the same middleware starts: the
    closure is kept, the request and the response are new. *)
Definition next_request (clock : Time) (w : World) : World :=
  {| now := clock; credential := credential w; tsExpiry := tsExpiry w;
     schManager := schManager w; req_sso := None; res := fresh_response;
     trace := trace w; debugLog := debugLog w |}.

(** ** What a client and the downstream handlers observe *)

(** The label is erased from the session, and the token from the input of
    the provider's step; the diagnostic log is left out. *)
Definition erase_label (s : SSOJson) : SSOJson :=
  {| sso_method := ""; sso_user := sso_user s; sso_owner := sso_owner s |}.

Definition erase_token (ev : Event) : Event :=
  match ev with
  | EvAcceptSecurityContext input =>
      EvAcceptSecurityContext
        {| in_credential := in_credential input;
           clientSecurityContext :=
             {| client_SecBufferDesc := {| ulVersion := 0; buffers := [] |} |};
           in_contextHandle := in_contextHandle input |}
  | _ => ev
  end.

Inductive Exit :=
| ExitReturned
| ExitThrown (e : Exn)
| ExitAwaiting (k : Key).

Record Observation := {
  obs_exit : Exit;
  obs_res : ServerResponse;
  obs_calls : list Event;
  obs_session : option SSOJson;
  obs_schManager : ServerContextHandleManager;
  obs_credential : CredHandle;
  obs_tsExpiry : Time
}.

Definition observe_world (x : Exit) (w : World) : Observation :=
  {| obs_exit := x;
     obs_res := res w;
     obs_calls := erase_token <$> trace w;
     obs_session := erase_label <$> req_sso w;
     obs_schManager := schManager w;
     obs_credential := credential w;
     obs_tsExpiry := tsExpiry w |}.

Definition observe {A} (r : Result A) : Observation :=
  match r with
  | Returned _ w => observe_world ExitReturned w
  | Thrown e w => observe_world (ExitThrown e) w
  | Awaiting k w _ => observe_world (ExitAwaiting k) w
  end.

(** ** Example environments *)

(** The base64 codec, as base64-arraybuffer computes it. *)
Module Base64.

Definition chars : string :=
  "ABCDEFGHIJKLMNOPQRSTUVWXYZabcdefghijklmnopqrstuvwxyz0123456789+/".

Definition char_at (n : N) : ascii :=
  match String.get (N.to_nat n) chars with
  | Some c => c
  | None => "="%char
  end.

Fixpoint encode_bytes (bytes : list N) : string :=
  match bytes with
  | [] => ""
  | [b0] =>
      String (char_at (N.shiftr b0 2))
        (String (char_at (N.shiftl (N.land b0 3) 4)) "==")
  | [b0; b1] =>
      String (char_at (N.shiftr b0 2))
        (String (char_at (N.lor (N.shiftl (N.land b0 3) 4) (N.shiftr b1 4)))
           (String (char_at (N.shiftl (N.land b1 15) 2)) "="))
  | b0 :: b1 :: b2 :: rest =>
      String (char_at (N.shiftr b0 2))
        (String (char_at (N.lor (N.shiftl (N.land b0 3) 4) (N.shiftr b1 4)))
           (String (char_at (N.lor (N.shiftl (N.land b1 15) 2) (N.shiftr b2 6)))
              (String (char_at (N.land b2 63)) (encode_bytes rest))))
  end.

Definition encode (buffer : ArrayBuffer) : string :=
  encode_bytes (Byte.to_N <$> buffer).

Fixpoint index_in (c : ascii) (alphabet : string) (i : N) : N :=
  match alphabet with
  | EmptyString => 0%N
  | String c' rest => if Ascii.eqb c c' then i else index_in c rest (N.succ i)
  end.

Definition lookup_char (c : ascii) : N := index_in c chars 0.

Definition to_byte (n : N) : Byte.byte :=
  match Byte.of_N (n mod 256) with
  | Some b => b
  | None => Byte.x00
  end.

Fixpoint decode_chars (cs : list ascii) : list Byte.byte :=
  match cs with
  | [] => []
  | c0 :: cs1 =>
      let e1 := lookup_char c0 in
      match cs1 with
      | [] => [to_byte (N.shiftl e1 2)]
      | c1 :: cs2 =>
          let e2 := lookup_char c1 in
          let b0 := to_byte (N.lor (N.shiftl e1 2) (N.shiftr e2 4)) in
          match cs2 with
          | [] => [b0; to_byte (N.shiftl (N.land e2 15) 4)]
          | c2 :: cs3 =>
              let e3 := lookup_char c2 in
              let b1 := to_byte (N.lor (N.shiftl (N.land e2 15) 4) (N.shiftr e3 2)) in
              match cs3 with
              | [] => [b0; b1; to_byte (N.shiftl (N.land e3 3) 6)]
              | c3 :: rest =>
                  let e4 := lookup_char c3 in
                  b0 :: b1 :: to_byte (N.lor (N.shiftl (N.land e3 3) 6) (N.land e4 63))
                     :: decode_chars rest
              end
          end
      end
  end.

Definition padding (cs : list ascii) : nat :=
  match rev cs with
  | "="%char :: "="%char :: _ => 2
  | "="%char :: _ => 1
  | _ => 0
  end.

Definition decode (base64 : string) : ArrayBuffer :=
  let cs := list_ascii_of_string base64 in
  take (length cs * 3 / 4 - padding cs)%nat (decode_chars cs).

End Base64.

Definition example_user : User :=
  {| name := Some "alice"; sid := Some "S-1-5-21-1000"; displayName := Some "Alice";
     domain := Some "EXAMPLE"; groups := Some ["Users"]; adUser := None |}.

(** An environment around a given provider's step. *)
Definition example_env
    (step : AcceptSecurityContextInput -> Exn + ServerSecurityContext) : Environment :=
  {| sspi_AcquireCredentialsHandle :=
       fun _ => {| cwe_credential := 2%nat; cwe_tsExpiry := 90000 |};
     sspi_AcceptSecurityContext := step;
     sso_load := fun _ _ => (example_user, None);
     decode := Base64.decode;
     encode := Base64.encode;
     hexDump := fun _ => "";
     issueToken := fun _ => "c0ffee";
     cookieName := "NEGOTIATE_ID" |}.

Definition security_context (h : CtxtHandle) (status : string) (token : ArrayBuffer)
    : ServerSecurityContext :=
  {| contextHandle := h; SECURITY_STATUS := status;
     server_SecBufferDesc := {| ulVersion := 0; buffers := [token] |} |}.

(** A provider that asks for a second leg under handle 7, and on the
    second leg answers with the given outcome. *)
Definition two_legs (second : Exn + ServerSecurityContext)
    (input : AcceptSecurityContextInput) : Exn + ServerSecurityContext :=
  match in_contextHandle input with
  | None => inr (security_context 7%nat "SEC_I_CONTINUE_NEEDED" [Byte.x4e; Byte.x54; Byte.x4c])
  | Some _ => second
  end.

(** A provider that asks for a second leg with an output token of length
    zero. *)
Definition empty_continuation (input : AcceptSecurityContextInput)
    : Exn + ServerSecurityContext :=
  inr (security_context 7%nat "SEC_I_CONTINUE_NEEDED" []).

Definition completing : AcceptSecurityContextInput -> Exn + ServerSecurityContext :=
  two_legs (inr (security_context 7%nat "SEC_E_OK" [])).

Definition denying : AcceptSecurityContextInput -> Exn + ServerSecurityContext :=
  two_legs (inr (security_context 7%nat "SEC_E_LOGON_DENIED" [])).

Definition failing : AcceptSecurityContextInput -> Exn + ServerSecurityContext :=
  two_legs (inl (Error "AcceptSecurityContext: SEC_E_INTERNAL_ERROR")).

Definition example_world : World :=
  {| now := 1000; credential := 1%nat; tsExpiry := 50000;
     schManager := new_ServerContextHandleManager 10000;
     req_sso := None; res := fresh_response; trace := []; debugLog := [] |}.

Definition request_without_header : IncomingMessage :=
  {| authorization := None; cookie := None |}.

Definition request_with_token (token : string) : IncomingMessage :=
  {| authorization := Some ("Negotiate " +:+ token); cookie := None |}.

(** The world a handler leaves, whichever way it exits. *)
Definition final_world {A} (r : Result A) : World :=
  match r with
  | Returned _ w => w
  | Thrown _ w => w
  | Awaiting _ w _ => w
  end.

(** A world in which the credential has expired. *)
Definition expired_world : World :=
  {| now := 60000; credential := 1%nat; tsExpiry := 50000;
     schManager := new_ServerContextHandleManager 10000;
     req_sso := None; res := fresh_response; trace := []; debugLog := [] |}.

Definition first_leg : IncomingMessage := request_with_token "YIIBAQ==".
Definition second_leg : IncomingMessage := request_with_token "YIICAg==".

(** The world of the second leg: the one left by the first leg of a
    negotiation, with a new request and response. *)
Definition second_leg_world
    (step : AcceptSecurityContextInput -> Exn + ServerSecurityContext) : World :=
  next_request 2000
    (final_world (middleware (example_env step) default_opts first_leg example_world)).

(** A user of whom only the name is known. *)
Definition user_named (who : string) : User :=
  {| name := Some who; sid := None; displayName := None;
     domain := None; groups := None; adUser := None |}.

(** More requests and runs for examples. *)
Definition malformed_request : IncomingMessage :=
  {| authorization := Some "Basic YWxpY2U6c2VjcmV0"; cookie := None |}.

Definition request_with_empty_header : IncomingMessage :=
  {| authorization := Some ""; cookie := None |}.

(** The first leg on a credential that has expired. *)
Definition renewing_run : Result unit :=
  middleware (example_env completing) default_opts first_leg expired_world.

(** The second leg when the provider completes. *)
Definition completing_run : Result unit :=
  middleware (example_env completing) default_opts second_leg
    (second_leg_world completing).

(** The [try] block of that second leg. *)
Definition completing_block : Result Completion :=
  try_block (example_env completing) default_opts second_leg
    (second_leg_world completing).

(** ** The client and server handshake in one process: [connect] *)

Module Connect.

(** [sspi.UserCredential], also the [authData] of a credential request. *)
Record UserCredential := {
  domain : string;
  user : string;
  password : string
}.

Record AcquireCredentialsHandleInput := {
  packageName : string;
  authData : option UserCredential
}.

Record SecurityPackageInfo := {
  cbMaxToken : Z
}.

(** [sspi.SecurityContext]: the handle, the status and the buffers, for
    the client's side and for the server's. *)
Definition SecurityContext := ServerSecurityContext.

Record InitializeSecurityContextInput := {
  init_credential : CredHandle;
  targetName : string;
  init_cbMaxToken : Z;
  init_serverSecurityContext : option SecurityContext;
  init_contextHandle : option CtxtHandle
}.

Record AcceptSecurityContextInput := {
  accept_credential : CredHandle;
  accept_clientSecurityContext : option SecurityContext;
  accept_contextHandle : option CtxtHandle
}.

(** The object returned by [connect]. *)
Record SSO := {
  sso_contextHandle : CtxtHandle;
  sso_user : User
}.

(** The provider, as [connect] uses it.  The provider keeps the state of
    the handshake: the answer of a step may depend on the round in which
    it is asked, and a step either returns a security context or throws.
    The queries before the loop, [hexDump] and the construction of the
    SSO object are taken to return.
    Modelled from the spec: [new SSO(handle)] of src/SSO.ts reads the
    identity of the user from the completed handle. *)
Record Sspi := {
  QuerySecurityPackageInfo : string -> SecurityPackageInfo;
  AcquireCredentialsHandle : AcquireCredentialsHandleInput -> CredentialWithExpiry;
  InitializeSecurityContext :
    nat -> InitializeSecurityContextInput -> Exn + SecurityContext;
  AcceptSecurityContext :
    nat -> AcceptSecurityContextInput -> Exn + SecurityContext;
  SSO_user : CtxtHandle -> User;
  hexDump : ArrayBuffer -> string
}.

Inductive Call :=
| CallQuerySecurityPackageInfo (packageName : string)
| CallAcquireCredentialsHandle (input : AcquireCredentialsHandleInput)
| CallInitializeSecurityContext (input : InitializeSecurityContextInput)
| CallAcceptSecurityContext (input : AcceptSecurityContextInput)
| CallNewSSO (h : CtxtHandle)
| CallTrace (message : string)
| CallConsoleError (e : Exn).

(** The two messages; [connect] throws the strings themselves, and the
    thrown value is recorded by its message. *)
Definition errorMsg : string := "error while building the security context".
Definition badLoginPasswordMsg : string := "sorry mate, wrong login/password.".

(** The variables of the loop, and the calls made so far. *)
Record LoopState := {
  i : nat;
  clientInput : InitializeSecurityContextInput;
  serverInput : AcceptSecurityContextInput;
  serverSecurityContext : option SecurityContext;
  clientSecurityContext : option SecurityContext;
  calls : list Call
}.

(** How an iteration of [while (true)] ends. *)
Inductive Iteration :=
| Continue (st : LoopState)
| Break (st : LoopState)
| Throw (e : Exn) (st : LoopState).

Definition continue_or_ok (status : string) : bool :=
  String.eqb status "SEC_I_CONTINUE_NEEDED" || String.eqb status "SEC_E_OK".

Section Loop.

Variable sspi : Sspi.

(** The statements of the body up to the client's step: the count, and
    the update of the client's input once the server has answered. *)
Definition client_input (st : LoopState) : Exn + InitializeSecurityContextInput :=
  match serverSecurityContext st with
  | Some ssc =>
      match clientSecurityContext st with
      | Some csc =>
          inr {| init_credential := init_credential (clientInput st);
                 targetName := targetName (clientInput st);
                 init_cbMaxToken := init_cbMaxToken (clientInput st);
                 init_serverSecurityContext := Some ssc;
                 init_contextHandle := Some (contextHandle csc) |}
      | None => inl (Error "TypeError: clientSecurityContext is undefined")
      end
  | None => inr (clientInput st)
  end.

(** The server's input for the client's answer. *)
Definition server_input (st : LoopState) (csc : SecurityContext)
    : AcceptSecurityContextInput :=
  {| accept_credential := accept_credential (serverInput st);
     accept_clientSecurityContext := Some csc;
     accept_contextHandle :=
       match serverSecurityContext st with
       | Some ssc => Some (contextHandle ssc)
       | None => accept_contextHandle (serverInput st)
       end |}.

(** One iteration of the loop. *)
Definition iteration (st : LoopState) : Iteration :=
  let round := i st in
  let traced := calls st ++ [CallTrace "i: "] in
  match client_input st with
  | inl e =>
      Throw e {| i := S round; clientInput := clientInput st;
                 serverInput := serverInput st;
                 serverSecurityContext := serverSecurityContext st;
                 clientSecurityContext := clientSecurityContext st;
                 calls := traced |}
  | inr cin =>
      let called := traced ++ [CallInitializeSecurityContext cin] in
      match InitializeSecurityContext sspi round cin with
      | inl e =>
          Throw e {| i := S round; clientInput := cin;
                     serverInput := serverInput st;
                     serverSecurityContext := serverSecurityContext st;
                     clientSecurityContext := clientSecurityContext st;
                     calls := called |}
      | inr csc =>
          let called :=
            called ++ [CallTrace "clientSecurityContext: ";
                       CallTrace (hexDump sspi (buffer0 (server_SecBufferDesc csc)))] in
          if negb (continue_or_ok (SECURITY_STATUS csc)) then
            Throw (Error errorMsg)
              {| i := S round; clientInput := cin;
                 serverInput := serverInput st;
                 serverSecurityContext := serverSecurityContext st;
                 clientSecurityContext := Some csc;
                 calls := called |}
          else
            let sin := server_input st csc in
            let called := called ++ [CallAcceptSecurityContext sin] in
            match AcceptSecurityContext sspi round sin with
            | inl e =>
                Throw e {| i := S round; clientInput := cin; serverInput := sin;
                           serverSecurityContext := serverSecurityContext st;
                           clientSecurityContext := Some csc;
                           calls := called |}
            | inr ssc =>
                let called := called ++ [CallTrace "serverSecurityContext: "] in
                let st' calls' :=
                  {| i := S round; clientInput := cin; serverInput := sin;
                     serverSecurityContext := Some ssc;
                     clientSecurityContext := Some csc;
                     calls := calls' |} in
                if negb (continue_or_ok (SECURITY_STATUS ssc)) then
                  if String.eqb (SECURITY_STATUS ssc) "SEC_E_LOGON_DENIED" then
                    Throw (Error badLoginPasswordMsg) (st' called)
                  else Throw (Error errorMsg) (st' called)
                else
                  let called :=
                    called ++ [CallTrace (hexDump sspi (buffer0 (server_SecBufferDesc ssc)))] in
                  if negb (String.eqb (SECURITY_STATUS ssc) "SEC_E_OK") then
                    Continue (st' called)
                  else
                    Break (st' (called ++ [CallTrace "We have the security context !!!"]))
            end
      end
  end.

(** [while (true) { ... }], for at most [fuel] iterations: [None] when the
    loop is still running after them. *)
Fixpoint loop (fuel : nat) (st : LoopState) : option (Exn * LoopState + LoopState) :=
  match fuel with
  | O => None
  | S fuel' =>
      match iteration st with
      | Continue st' => loop fuel' st'
      | Break st' => Some (inr st')
      | Throw e st' => Some (inl (e, st'))
      end
  end.

(** The statements of the [try] block before the loop. *)
Definition before_loop (userCredential : UserCredential) : LoopState :=
  let packageInfo := QuerySecurityPackageInfo sspi "Negotiate" in
  let clientRequest :=
    {| packageName := "Negotiate";
       authData := Some {| domain := domain userCredential;
                           user := user userCredential;
                           password := password userCredential |} |} in
  let serverRequest := {| packageName := "Negotiate"; authData := None |} in
  let clientCred := AcquireCredentialsHandle sspi clientRequest in
  let serverCred := AcquireCredentialsHandle sspi serverRequest in
  {| i := 0;
     clientInput :=
       {| init_credential := cwe_credential clientCred;
          targetName := "kiki";
          init_cbMaxToken := cbMaxToken packageInfo;
          init_serverSecurityContext := None;
          init_contextHandle := None |};
     serverInput :=
       {| accept_credential := cwe_credential serverCred;
          accept_clientSecurityContext := None;
          accept_contextHandle := None |};
     serverSecurityContext := None;
     clientSecurityContext := None;
     calls := [CallQuerySecurityPackageInfo "Negotiate";
               CallAcquireCredentialsHandle clientRequest;
               CallAcquireCredentialsHandle serverRequest] |}.

(** [sso.user.name === 'Guest'] *)
Definition is_guest (u : User) : bool :=
  match name u with
  | Some n => String.eqb n "Guest"
  | None => false
  end.

(** What [connect] returns, [undefined] being [None], with the calls it
    made. *)
Record Outcome := {
  returned : option SSO;
  made : list Call
}.

(** The [catch] block and the [return undefined] after it. *)
Definition caught (e : Exn) (st : LoopState) : Outcome :=
  {| returned := None; made := calls st ++ [CallConsoleError e] |}.

(** The statements after the loop. *)
Definition after_loop (st : LoopState) : Outcome :=
  match serverSecurityContext st with
  | None => caught (Error "TypeError: serverSecurityContext is undefined") st
  | Some ssc =>
      let sso := {| sso_contextHandle := contextHandle ssc;
                    sso_user := SSO_user sspi (contextHandle ssc) |} in
      let st' :=
        {| i := i st; clientInput := clientInput st; serverInput := serverInput st;
           serverSecurityContext := serverSecurityContext st;
           clientSecurityContext := clientSecurityContext st;
           calls := calls st ++ [CallNewSSO (contextHandle ssc)] |} in
      if is_guest (sso_user sso) then caught (Error badLoginPasswordMsg) st'
      else {| returned := Some sso; made := calls st' |}
  end.

(** [connect(userCredential)], for a loop of at most [fuel] iterations:
    [None] when the loop is still running after them. *)
Definition connect (fuel : nat) (userCredential : UserCredential) : option Outcome :=
  match loop fuel (before_loop userCredential) with
  | None => None
  | Some (inl (e, st)) => Some (caught e st)
  | Some (inr st) => Some (after_loop st)
  end.

(** The state after [k] iterations that all end in [continue]. *)
Fixpoint after_rounds (k : nat) (st : LoopState) : option LoopState :=
  match k with
  | O => Some st
  | S k' =>
      match iteration st with
      | Continue st' => after_rounds k' st'
      | _ => None
      end
  end.

End Loop.

(** Readings of the calls. *)
Definition initializations (cs : list Call) : list InitializeSecurityContextInput :=
  omap (fun c => match c with CallInitializeSecurityContext input => Some input | _ => None end) cs.

Definition acceptances (cs : list Call) : list AcceptSecurityContextInput :=
  omap (fun c => match c with CallAcceptSecurityContext input => Some input | _ => None end) cs.

Definition errors (cs : list Call) : list Exn :=
  omap (fun c => match c with CallConsoleError e => Some e | _ => None end) cs.

(** What a completed round of the loop did: both steps were asked in the
    round of the count, both answered CONTINUE_NEEDED or OK, and the
    answers are kept for the next round. *)
Definition round_done (sspi : Sspi) (st st' : LoopState)
    (cin : InitializeSecurityContextInput) (csc ssc : SecurityContext) : Prop :=
  client_input st = inr cin /\
  InitializeSecurityContext sspi (i st) cin = inr csc /\
  continue_or_ok (SECURITY_STATUS csc) = true /\
  AcceptSecurityContext sspi (i st) (server_input st csc) = inr ssc /\
  continue_or_ok (SECURITY_STATUS ssc) = true /\
  i st' = S (i st) /\
  clientInput st' = cin /\
  serverInput st' = server_input st csc /\
  serverSecurityContext st' = Some ssc /\
  clientSecurityContext st' = Some csc /\
  initializations (calls st') = initializations (calls st) ++ [cin] /\
  acceptances (calls st') = acceptances (calls st) ++ [server_input st csc] /\
  errors (calls st') = errors (calls st) /\
  exists more, calls st' = calls st ++ more.

(** The credentials of the two roles, as [connect] acquires them. *)
Definition client_credential (sspi : Sspi) (userCredential : UserCredential) : CredHandle :=
  cwe_credential
    (AcquireCredentialsHandle sspi
       {| packageName := "Negotiate";
          authData := Some {| domain := domain userCredential;
                              user := user userCredential;
                              password := password userCredential |} |}).

Definition server_credential (sspi : Sspi) : CredHandle :=
  cwe_credential
    (AcquireCredentialsHandle sspi {| packageName := "Negotiate"; authData := None |}).

(** A client's input of this handshake, and a server's. *)
Definition client_role (sspi : Sspi) (userCredential : UserCredential)
    (input : InitializeSecurityContextInput) : Prop :=
  init_credential input = client_credential sspi userCredential /\
  targetName input = "kiki" /\
  init_cbMaxToken input = cbMaxToken (QuerySecurityPackageInfo sspi "Negotiate").

Definition server_role (sspi : Sspi) (input : AcceptSecurityContextInput) : Prop :=
  accept_credential input = server_credential sspi.

(** What holds of the variables of the loop between two iterations. *)
Definition between_rounds (sspi : Sspi) (userCredential : UserCredential)
    (st : LoopState) : Prop :=
  client_role sspi userCredential (clientInput st) /\
  server_role sspi (serverInput st) /\
  (is_Some (serverSecurityContext st) -> is_Some (clientSecurityContext st)) /\
  (i st = 0%nat -> serverSecurityContext st = None) /\
  length (initializations (calls st)) = i st /\
  length (acceptances (calls st)) = i st /\
  errors (calls st) = [] /\
  Forall (client_role sspi userCredential) (initializations (calls st)) /\
  Forall (server_role sspi) (acceptances (calls st)) /\
  exists more,
    calls st =
      [CallQuerySecurityPackageInfo "Negotiate";
       CallAcquireCredentialsHandle
         {| packageName := "Negotiate";
            authData := Some {| domain := domain userCredential;
                                user := user userCredential;
                                password := password userCredential |} |};
       CallAcquireCredentialsHandle {| packageName := "Negotiate"; authData := None |}]
      ++ more.

(** The client's input of round [r]: in the first round it has no answer
    of the server and no handle; in a later round it carries the answer
    the server gave in the round before and the handle of the answer the
    client itself got in that round. *)
Definition client_fed (sspi : Sspi)
    (inits : list InitializeSecurityContextInput)
    (accs : list AcceptSecurityContextInput) (r : nat)
    (cin : InitializeSecurityContextInput) : Prop :=
  match r with
  | O =>
      init_serverSecurityContext cin = None /\
      init_contextHandle cin = None
  | S r' =>
      exists cin' sin' csc' ssc',
        inits !! r' = Some cin' /\
        accs !! r' = Some sin' /\
        InitializeSecurityContext sspi r' cin' = inr csc' /\
        AcceptSecurityContext sspi r' sin' = inr ssc' /\
        init_serverSecurityContext cin = Some ssc' /\
        init_contextHandle cin = Some (contextHandle csc')
  end.

(** The server's input of round [r]: it carries the answer the client
    gave in this round; in the first round it has no handle, and in a
    later round the handle of the answer the server gave in the round
    before. *)
Definition server_fed (sspi : Sspi)
    (inits : list InitializeSecurityContextInput)
    (accs : list AcceptSecurityContextInput) (r : nat)
    (sin : AcceptSecurityContextInput) : Prop :=
  (exists cin csc,
     inits !! r = Some cin /\
     InitializeSecurityContext sspi r cin = inr csc /\
     accept_clientSecurityContext sin = Some csc) /\
  match r with
  | O => accept_contextHandle sin = None
  | S r' =>
      exists sin' ssc',
        accs !! r' = Some sin' /\
        AcceptSecurityContext sspi r' sin' = inr ssc' /\
        accept_contextHandle sin = Some (contextHandle ssc')
  end.

(** Every call of the client's step and every call of the server's step,
    the last ones included, was fed in this way. *)
Definition chained (sspi : Sspi)
    (inits : list InitializeSecurityContextInput)
    (accs : list AcceptSecurityContextInput) : Prop :=
  (forall r cin, inits !! r = Some cin -> client_fed sspi inits accs r cin) /\
  (forall r sin, accs !! r = Some sin -> server_fed sspi inits accs r sin).

(** The answers of the last round are the ones the variables hold. *)
Definition answers_kept (sspi : Sspi) (st : LoopState) : Prop :=
  chained sspi (initializations (calls st)) (acceptances (calls st)) /\
  match i st with
  | O =>
      serverSecurityContext st = None /\
      init_serverSecurityContext (clientInput st) = None /\
      init_contextHandle (clientInput st) = None /\
      accept_contextHandle (serverInput st) = None
  | S r' =>
      exists cin' sin' csc' ssc',
        initializations (calls st) !! r' = Some cin' /\
        acceptances (calls st) !! r' = Some sin' /\
        InitializeSecurityContext sspi r' cin' = inr csc' /\
        AcceptSecurityContext sspi r' sin' = inr ssc' /\
        serverSecurityContext st = Some ssc' /\
        clientSecurityContext st = Some csc'
  end.

(** A provider for examples: the handshake takes the given number of
    rounds, the server then answers with the given status, and the user of
    the completed context has the given name. *)
Definition example_sspi (rounds : nat) (final : string) (who : string) : Sspi :=
  {| QuerySecurityPackageInfo := fun _ => {| cbMaxToken := 48256 |};
     AcquireCredentialsHandle :=
       fun input =>
         match authData input with
         | Some _ => {| cwe_credential := 11%nat; cwe_tsExpiry := 90000 |}
         | None => {| cwe_credential := 12%nat; cwe_tsExpiry := 90000 |}
         end;
     InitializeSecurityContext :=
       fun round _ =>
         inr {| contextHandle := 21%nat;
                SECURITY_STATUS :=
                  if (S round <? rounds)%nat then "SEC_I_CONTINUE_NEEDED" else "SEC_E_OK";
                server_SecBufferDesc := {| ulVersion := 0; buffers := [[Byte.x01]] |} |};
     AcceptSecurityContext :=
       fun round _ =>
         inr {| contextHandle := 22%nat;
                SECURITY_STATUS :=
                  if (S round <? rounds)%nat then "SEC_I_CONTINUE_NEEDED" else final;
                server_SecBufferDesc := {| ulVersion := 0; buffers := [[Byte.x02]] |} |};
     SSO_user :=
       fun _ => user_named who;
     hexDump := fun _ => "" |}.

(** A provider that asks for one more round, whatever the round. *)
Definition endless_sspi : Sspi :=
  {| QuerySecurityPackageInfo := fun _ => {| cbMaxToken := 48256 |};
     AcquireCredentialsHandle :=
       fun _ => {| cwe_credential := 11%nat; cwe_tsExpiry := 90000 |};
     InitializeSecurityContext :=
       fun _ _ =>
         inr {| contextHandle := 21%nat; SECURITY_STATUS := "SEC_I_CONTINUE_NEEDED";
                server_SecBufferDesc := {| ulVersion := 0; buffers := [] |} |};
     AcceptSecurityContext :=
       fun _ _ =>
         inr {| contextHandle := 22%nat; SECURITY_STATUS := "SEC_I_CONTINUE_NEEDED";
                server_SecBufferDesc := {| ulVersion := 0; buffers := [] |} |};
     SSO_user := fun _ => user_named "alice";
     hexDump := fun _ => "" |}.

Definition example_user_credential : UserCredential :=
  {| domain := "EXAMPLE"; user := "alice"; password := "secret" |}.

(** The outcome of a call that returned. *)
Definition outcome_of (o : option Outcome) : Outcome :=
  match o with
  | Some out => out
  | None => {| returned := None; made := [] |}
  end.

(** Handshakes for examples: accepted after two rounds, and completed in
    one round for the guest account. *)
Definition accepted_sspi : Sspi := example_sspi 2 "SEC_E_OK" "alice".
Definition guest_sspi : Sspi := example_sspi 1 "SEC_E_OK" "Guest".

Definition accepted_outcome : Outcome :=
  outcome_of (connect accepted_sspi 2 example_user_credential).
Definition guest_outcome : Outcome :=
  outcome_of (connect guest_sspi 1 example_user_credential).

End Connect.

(** ** More readings of the log and of a request *)

(** The inputs of the calls to [sspi.AcceptSecurityContext], in order. *)
Definition steps (tr : list Event) : list AcceptSecurityContextInput :=
  omap (fun ev => match ev with
                  | EvAcceptSecurityContext input => Some input
                  | _ => None
                  end) tr.

(** The calls that free or acquire a credential, in order. *)
Definition credential_calls (tr : list Event) : list Event :=
  List.filter (fun ev => match ev with
                         | EvFreeCredentialsHandle _
                         | EvAcquireCredentialsHandle _ => true
                         | _ => false
                         end) tr.

(** The calls to [console.error], in order. *)
Definition logged_errors (tr : list Event) : list Exn :=
  omap (fun ev => match ev with EvConsoleError e => Some e | _ => None end) tr.

(** [tsExpiry < new Date()] *)
Definition expired (w : World) : bool := tsExpiry w <? now w.

(** The response after [res.setHeader('WWW-Authenticate', value)]. *)
Definition with_authenticate (value : string) (r : ServerResponse) : ServerResponse :=
  {| statusCode := statusCode r;
     headers := <["WWW-Authenticate" := value]> (headers r);
     body := body r; ended := ended r |}.

(** The response of a challenge: status 401, the header, ended. *)
Definition challenge (value : string) (r : ServerResponse) : ServerResponse :=
  {| statusCode := 401;
     headers := <["WWW-Authenticate" := value]> (headers r);
     body := body r; ended := true |}.

(** What a handler changed between two worlds: the calls it added to the
    log, and the response, the manager and the session it leaves; the
    credential and the clock are as before. *)
Definition leaves (before after : World) (calls : list Event) (r : ServerResponse)
    (m : ServerContextHandleManager) (session : option SSOJson) : Prop :=
  trace after = trace before ++ calls /\
  res after = r /\
  schManager after = m /\
  req_sso after = session /\
  credential after = credential before /\
  tsExpiry after = tsExpiry before /\
  now after = now before.

(** ** Running a handler step by step *)

Lemma run_bind {A B} (m : M A) (f : A -> M B) w :
  @mbind M _ A B f m w = bind_result (m w) f.
Proof. reflexivity. Qed.

Lemma run_mret {A} (a : A) w : @mret M _ A a w = Returned a w.
Proof. reflexivity. Qed.

Lemma run_throw {A} e w : @throw A e w = Thrown e w.
Proof. reflexivity. Qed.

Lemma run_gets {A} (f : World -> A) w : gets f w = Returned (f w) w.
Proof. reflexivity. Qed.

Lemma run_modify f w : modify f w = Returned tt (f w).
Proof. reflexivity. Qed.

Lemma run_emit ev w : emit ev w = Returned tt (log_event ev w).
Proof. reflexivity. Qed.

Lemma run_debug msg w : debug msg w = Returned tt (log_debug msg w).
Proof. reflexivity. Qed.

Lemma run_call_inr {A} ev (a : A) w : call ev (inr a) w = Returned a (log_event ev w).
Proof. reflexivity. Qed.

Lemma run_call_inl {A} ev e w : @call A ev (inl e) w = Thrown e (log_event ev w).
Proof. reflexivity. Qed.

Lemma bind_returned {A B} (a : A) w (f : A -> M B) :
  bind_result (Returned a w) f = f a w.
Proof. reflexivity. Qed.

Lemma bind_thrown {A B} e w (f : A -> M B) :
  bind_result (Thrown e w) f = Thrown e w.
Proof. reflexivity. Qed.

Lemma catch_returned {A} (a : A) w h : catch_result (Returned a w) h = Returned a w.
Proof. reflexivity. Qed.

Lemma catch_thrown {A} e w (h : Exn -> M A) : catch_result (Thrown e w) h = h e w.
Proof. reflexivity. Qed.

Lemma run_try_catch {A} (m : M A) h w : try_catch m h w = catch_result (m w) h.
Proof. reflexivity. Qed.

Create Rewrite HintDb run.
#[local] Hint Rewrite @run_bind @run_mret @run_throw @run_gets @run_modify @run_emit
  @run_debug @run_call_inr @run_call_inl @bind_returned @bind_thrown
  @catch_returned @catch_thrown @run_try_catch : run.

Ltac run := repeat (progress autorewrite with run).

Lemma run_res_statusCode code w :
  res_statusCode code w =
    Returned tt
      (with_res {| statusCode := code; headers := headers (res w);
                   body := body (res w); ended := ended (res w) |}
                (log_event (EvStatusCode code) w)).
Proof. unfold res_statusCode. run. reflexivity. Qed.

Lemma run_res_setHeader name value w :
  res_setHeader name value w =
    Returned tt
      (with_res {| statusCode := statusCode (res w);
                   headers := <[name := value]> (headers (res w));
                   body := body (res w); ended := ended (res w) |}
                (log_event (EvSetHeader name value) w)).
Proof. unfold res_setHeader. run. reflexivity. Qed.

Lemma run_res_end w :
  res_end w =
    Returned tt
      (with_res {| statusCode := statusCode (res w); headers := headers (res w);
                   body := body (res w); ended := true |}
                (log_event EvEnd w)).
Proof. unfold res_end. run. reflexivity. Qed.

Lemma run_next err w : next err w = Returned tt (log_event (EvNext err) w).
Proof. reflexivity. Qed.

Lemma run_console_error e w :
  console_error e w = Returned tt (log_event (EvConsoleError e) w).
Proof. reflexivity. Qed.

Lemma run_getServerContextHandle w :
  schManager_getServerContextHandle w =
    Returned (mgr_getServerContextHandle (schManager w))
             (log_event (EvSchManager GetServerContextHandle) w).
Proof. unfold schManager_getServerContextHandle. run. reflexivity. Qed.

Lemma run_schManager_set h w :
  schManager_set h w =
    Returned tt (with_schManager (mgr_set h (schManager w))
                   (log_event (EvSchManager (SetHandle h)) w)).
Proof. unfold schManager_set. run. reflexivity. Qed.

Lemma run_schManager_release w :
  schManager_release w =
    Returned tt (with_schManager (mgr_release (schManager w))
                   (log_event (EvSchManager Release) w)).
Proof. unfold schManager_release. run. reflexivity. Qed.

#[local] Hint Rewrite run_res_statusCode run_res_setHeader run_res_end run_next
  run_console_error run_getServerContextHandle run_schManager_set
  run_schManager_release : run.

Lemma next_request_schManager clock w :
  schManager (next_request clock w) = schManager w.
Proof. reflexivity. Qed.

Lemma mgr_get_set h m : mgr_getServerContextHandle (mgr_set h m) = Some h.
Proof.
  unfold mgr_getServerContextHandle, mgr_set. cbn [table key].
  apply lookup_insert_eq.
Qed.


Lemma mgr_set_pending h m : pending (mgr_set h m) (key m) h.
Proof. unfold pending, mgr_set. cbn [table key]. apply lookup_insert_eq. Qed.

Section Claims.
Variable env : Environment.

Lemma run_catch_block e w :
  catch_block e w =
    Returned FallThrough
      (log_event (EvNext (Some (createError 400 unexpected_message)))
         (log_event (EvConsoleError e) w)).
Proof. unfold catch_block. run. reflexivity. Qed.


Lemma run_negotiate opts a w :
  negotiate env opts a w =
    match sspi_AcceptSecurityContext env (step_input env a w) with
    | inl e => Thrown e (at_step env a w)
    | inr ssc =>
        (if String.eqb (SECURITY_STATUS ssc) "SEC_I_CONTINUE_NEEDED" then
           continue_needed env ssc
         else if String.eqb (SECURITY_STATUS ssc) "SEC_E_OK" then
           completed env opts (method_of (token_of a)) ssc
         else mret FallThrough) (after_step env ssc (at_step env a w))
    end.
Proof.
  unfold negotiate. run.
  change (sspi_AcceptSecurityContext env _) with
    (sspi_AcceptSecurityContext env (step_input env a w)).
  destruct (sspi_AcceptSecurityContext env (step_input env a w)) as [e|ssc]; run;
    reflexivity.
Qed.

Lemma run_continue_needed ssc w :
  continue_needed env ssc w =
    Returned ReturnStmt
      (with_res {| statusCode := 401;
                   headers := <["WWW-Authenticate" := negotiate_header env ssc]> (headers (res w));
                   body := body (res w); ended := true |}
         (log_event EvEnd
            (log_event (EvSetHeader "WWW-Authenticate" (negotiate_header env ssc))
               (log_event (EvStatusCode 401) w)))).
Proof. unfold continue_needed. run. reflexivity. Qed.

Lemma run_completed opts method ssc w h :
  mgr_getServerContextHandle (schManager w) = Some h ->
  completed env opts method ssc w =
    Returned FallThrough
      (with_schManager (mgr_release (schManager w))
         (log_event (EvSchManager Release)
            (log_event (EvDeleteSecurityContext h)
               (with_req_sso
                  (Some {| sso_method := method;
                           sso_user := fst (sso_load env h opts);
                           sso_owner := snd (sso_load env h opts) |})
                  (log_event (EvSSOLoad h)
                     (log_event (EvSchManager GetServerContextHandle)
                        (with_res
                           {| statusCode := statusCode (res w);
                              headers := <["WWW-Authenticate" := negotiate_header env ssc]>
                                           (headers (res w));
                              body := body (res w); ended := ended (res w) |}
                           (log_event
                              (EvSetHeader "WWW-Authenticate" (negotiate_header env ssc))
                              w)))))))).
Proof.
  intros Hget. unfold completed, SSO_load_getJSON, sspi_Delete. run.
  cbn [schManager with_res log_event]. rewrite Hget.
  unfold defined. run. reflexivity.
Qed.

Lemma run_middleware opts req w :
  middleware env opts req w =
    bind_result (catch_result (try_block env opts req w) catch_block)
      (fun completion =>
         match completion with
         | ReturnStmt => mret tt
         | FallThrough => next None
         end).
Proof. reflexivity. Qed.

Lemma run_try_block opts req w w2 :
  prelude env opts req w = Returned tt w2 ->
  try_block env opts req w =
    (if falsy (authorization req) then no_authorization
     else if negb (startsWith (default "" (authorization req)) "Negotiate ")
          then malformed (default "" (authorization req))
          else negotiate env opts (default "" (authorization req))) w2.
Proof. intros Hprelude. unfold try_block. run. rewrite Hprelude. reflexivity. Qed.

Lemma run_checkCredentials w :
  checkCredentials env w =
    if tsExpiry w <? now w then
      Returned tt
        (with_tsExpiry (cwe_tsExpiry (sspi_AcquireCredentialsHandle env "Negotiate"))
           (with_credential (cwe_credential (sspi_AcquireCredentialsHandle env "Negotiate"))
              (log_event (EvAcquireCredentialsHandle "Negotiate")
                 (log_event (EvFreeCredentialsHandle (credential w)) w))))
    else Returned tt w.
Proof.
  unfold checkCredentials. run. cbn [id].
  destruct (tsExpiry w <? now w); run; reflexivity.
Qed.

Lemma run_setCookieMode req w :
  schManager_setCookieMode env req w =
    match cookie req with
    | Some k =>
        Returned tt
          (with_schManager (mgr_select k (schManager w))
             (log_event (EvSchManager SetCookieMode) w))
    | None =>
        let k := issueToken env (schManager w) in
        Returned tt
          (with_res {| statusCode := statusCode (res w);
                       headers := <["Set-Cookie" := cookieName env +:+ "=" +:+ k]> (headers (res w));
                       body := body (res w); ended := ended (res w) |}
             (log_event (EvSetHeader "Set-Cookie" (cookieName env +:+ "=" +:+ k))
                (with_schManager (mgr_select k (schManager w))
                   (log_event (EvSchManager SetCookieMode) w))))
    end.
Proof.
  unfold schManager_setCookieMode. run.
  destruct (cookie req); run; reflexivity.
Qed.

(** The statements before the reading of the header always return; they
    call neither [next] nor [release] nor the deletion of a context, and
    leave the table, the session, and the status, body and end of the
    response as they were. *)
Lemma prelude_returns opts req w :
  exists w2 evs,
    prelude env opts req w = Returned tt w2 /\
    trace w2 = trace w ++ evs /\
    nexts evs = [] /\ deletions evs = [] /\ releases evs = 0%nat /\
    table (schManager w2) = table (schManager w) /\
    req_sso w2 = req_sso w /\
    statusCode (res w2) = statusCode (res w) /\
    body (res w2) = body (res w) /\
    ended (res w2) = ended (res w).
Proof.
  unfold prelude. run. rewrite run_checkCredentials.
  destruct (tsExpiry w <? now w); run;
    (destruct (truthy (useCookies opts)); run;
     [rewrite run_setCookieMode; destruct (cookie req)|]);
    eexists; eexists; (split; [reflexivity|]); cbn;
    rewrite <- ?app_assoc; cbn;
    try (split; [reflexivity|]; cbn; auto 10).
  all: split; [symmetry; apply app_nil_r|]; auto 10.
Qed.

(** The correlation key selected for a request. *)
Lemma prelude_key opts req w w2 :
  prelude env opts req w = Returned tt w2 ->
  key (schManager w2) = selected_key env opts req (schManager w) /\
  table (schManager w2) = table (schManager w).
Proof.
  unfold prelude, selected_key. run. rewrite run_checkCredentials.
  destruct (tsExpiry w <? now w); run;
    (destruct (truthy (useCookies opts)); run;
     [rewrite run_setCookieMode; destruct (cookie req)|]);
    intros [= <-]; split; reflexivity.
Qed.

Lemma startsWith_not_falsy a :
  startsWith a "Negotiate " = true -> falsy (Some a) = false.
Proof. destruct a; [discriminate | reflexivity]. Qed.

(** ** Construction *)

(** C7: constructing the middleware with directory enrichment and cookie
    mode both enabled throws the configuration error at construction: no
    middleware is returned, so no request is served, and the provider has
    not been called. *)
Theorem auth_conflict_throws options :
  truthy (useActiveDirectory (Object_assign default_opts options)) = true ->
  truthy (useCookies (Object_assign default_opts options)) = true ->
  auth env options = ([], inl (Error conflict_message)).
Proof.
  intros Had Hck. unfold auth. rewrite Had, Hck. reflexivity.
Qed.

(** C9, as the code has it: with the defaults useActiveDirectory=true,
    useGroups=true, useOwner=false, useCookies=false, every call of [auth]
    with useCookies true and useActiveDirectory left out or true throws at
    construction, [auth({useCookies: true})] included. *)
Theorem auth_useCookies_throws_by_default options :
  useCookies options = Bool true ->
  useActiveDirectory options = Absent \/ useActiveDirectory options = Bool true ->
  default_opts =
    {| useGroups := Bool true; useActiveDirectory := Bool true;
       useOwner := Bool false; useCookies := Bool false |} /\
  auth env options = ([], inl (Error conflict_message)).
Proof.
  intros Hck Had. split; [reflexivity|].
  unfold auth, Object_assign.
  cbn [useCookies useActiveDirectory default_opts]. rewrite Hck.
  destruct Had as [Had|Had]; rewrite Had; reflexivity.
Qed.

(** ** Renewal of the credential *)

(** C5, as the code has it: when the expiry has passed, the renewal first
    frees the old handle, then acquires a credential for Negotiate, then
    stores the new handle and its expiry; it returns without a suspension
    point, and leaves the manager, the response and the session alone. *)
Theorem checkCredentials_renewal w :
  tsExpiry w < now w ->
  exists w',
    checkCredentials env w = Returned tt w' /\
    trace w' = trace w ++ [EvFreeCredentialsHandle (credential w);
                           EvAcquireCredentialsHandle "Negotiate"] /\
    credential w' = cwe_credential (sspi_AcquireCredentialsHandle env "Negotiate") /\
    tsExpiry w' = cwe_tsExpiry (sspi_AcquireCredentialsHandle env "Negotiate") /\
    schManager w' = schManager w /\ res w' = res w /\ req_sso w' = req_sso w.
Proof.
  intros Hexp. apply Z.ltb_lt in Hexp.
  rewrite run_checkCredentials, Hexp.
  eexists. split; [reflexivity|]. cbn. rewrite <- app_assoc. cbn. auto 10.
Qed.

(** ** The request without a credential header *)

Lemma run_no_authorization w :
  no_authorization w =
    let w1 := log_event (EvSchManager WaitForReleased) (log_debug "no authorization" w) in
    let written w' :=
      with_res {| statusCode := 401;
                  headers := <["WWW-Authenticate" := "Negotiate"]> (headers (res w'));
                  body := body (res w'); ended := true |}
        (log_event EvEnd
           (log_event (EvSetHeader "WWW-Authenticate" "Negotiate")
              (log_event (EvStatusCode 401) (log_debug "schManager released" w')))) in
    if slot_free (key (schManager w)) (schManager w) then Returned ReturnStmt (written w1)
    else Awaiting (key (schManager w)) w1 (fun w' => Returned ReturnStmt (written w')).
Proof.
  unfold no_authorization. run. unfold schManager_waitForReleased.
  cbn [schManager log_event log_debug].
  destruct (slot_free (key (schManager w)) (schManager w)); cbn [bind_result];
    run; reflexivity.
Qed.

(** C6: a request without a credential header first waits for the slot of
    its correlation key: nothing has been written to the response when the
    wait begins; if the slot is held the handler is suspended there, and
    the challenge (401, WWW-Authenticate: Negotiate, no body) is written
    only once it goes on; [next] is not called. *)
Theorem no_authorization_waits_then_challenges opts req w :
  falsy (authorization req) = true ->
  exists w2 w_wait,
    prelude env opts req w = Returned tt w2 /\
    trace w_wait = trace w2 ++ [EvSchManager WaitForReleased] /\
    res w_wait = res w2 /\ schManager w_wait = schManager w2 /\
    statusCode (res w2) = statusCode (res w) /\
    body (res w2) = body (res w) /\ ended (res w2) = ended (res w) /\
    if slot_free (key (schManager w2)) (schManager w2) then
      exists w3,
        middleware env opts req w = Returned tt w3 /\
        challenged w_wait w3 /\ nexts (trace w3) = nexts (trace w)
    else
      exists resume,
        middleware env opts req w = Awaiting (key (schManager w2)) w_wait resume /\
        forall w', exists w3,
          resume w' = Returned tt w3 /\
          challenged w' w3 /\ nexts (trace w3) = nexts (trace w').
Proof.
  intros Hfalsy.
  destruct (prelude_returns opts req w)
    as (w2 & evs & Hprelude & Htrace & Hnexts & _ & _ & _ & _ & Hstatus & Hbody & Hended).
  exists w2,
    (log_event (EvSchManager WaitForReleased) (log_debug "no authorization" w2)).
  split; [exact Hprelude|].
  rewrite run_middleware, (run_try_block _ _ _ _ Hprelude), Hfalsy, run_no_authorization.
  cbn zeta.
  split; [reflexivity|]. split; [reflexivity|]. split; [reflexivity|].
  split; [exact Hstatus|]. split; [exact Hbody|]. split; [exact Hended|].
  destruct (slot_free (key (schManager w2)) (schManager w2)).
  - cbn [catch_result bind_result]. run. eexists. split; [reflexivity|]. split.
    + unfold challenged. cbn. rewrite <- !app_assoc. cbn.
      rewrite lookup_insert_eq. auto 10.
    + cbn. unfold nexts. rewrite !omap_app, Htrace, omap_app. cbn.
      fold (nexts evs). rewrite Hnexts, !app_nil_r. reflexivity.
  - cbn [catch_result bind_result]. eexists. split; [reflexivity|].
    intros w'. run. eexists. split; [reflexivity|]. split.
    + unfold challenged. cbn. rewrite <- !app_assoc. cbn.
      rewrite lookup_insert_eq. auto 10.
    + cbn. unfold nexts. rewrite !omap_app. cbn. rewrite !app_nil_r. reflexivity.
Qed.

(** ** The negotiation step *)

Lemma substring_all s : String.substring 0 (String.length s) s = s.
Proof. induction s as [|c s IH]; cbn; [reflexivity | now rewrite IH]. Qed.

Lemma token_of_header token : token_of ("Negotiate " +:+ token) = token.
Proof.
  unfold token_of, substring_from.
  change ("Negotiate " +:+ token)
    with (String "N" (String "e" (String "g" (String "o" (String "t" (String "i"
         (String "a" (String "t" (String "e" (String " " token)))))))))).
  cbn [String.length Nat.sub String.substring].
  rewrite Nat.sub_0_r. apply substring_all.
Qed.

Lemma startsWith_header token : startsWith ("Negotiate " +:+ token) "Negotiate " = true.
Proof.
  unfold startsWith.
  change ("Negotiate " +:+ token)
    with (String "N" (String "e" (String "g" (String "o" (String "t" (String "i"
         (String "a" (String "t" (String "e" (String " " token)))))))))).
  cbn. destruct token; reflexivity.
Qed.

Lemma continuation_token_header (r : ServerResponse) token :
  headers r !! "WWW-Authenticate" = Some ("Negotiate " +:+ token) ->
  continuation_token r = Some token.
Proof.
  intros Hheader. unfold continuation_token. rewrite Hheader.
  rewrite startsWith_header. f_equal. apply token_of_header.
Qed.

(** How a request with a well-formed header reaches the provider's step. *)
Lemma run_to_step opts req a w w2 :
  authorization req = Some a ->
  startsWith a "Negotiate " = true ->
  prelude env opts req w = Returned tt w2 ->
  try_block env opts req w = negotiate env opts a w2.
Proof.
  intros Hauth Hprefix Hprelude.
  rewrite (run_try_block _ _ _ _ Hprelude), Hauth.
  rewrite (startsWith_not_falsy _ Hprefix). cbn [from_option id].
  rewrite Hprefix. reflexivity.
Qed.

(** C4, apart from the length of the token: on CONTINUE_NEEDED the handle
    returned by the step is stored under the correlation key, where the
    next round trip with the same key finds it; the response is a 401
    whose challenge header carries the encoding of the provider's output
    token; the key in use is kept, and [next] is not called. *)
Theorem continue_needed_stores_and_challenges opts req a w w2 ssc :
  authorization req = Some a ->
  startsWith a "Negotiate " = true ->
  prelude env opts req w = Returned tt w2 ->
  sspi_AcceptSecurityContext env (step_input env a w2) = inr ssc ->
  SECURITY_STATUS ssc = "SEC_I_CONTINUE_NEEDED" ->
  exists w3,
    middleware env opts req w = Returned tt w3 /\
    pending (schManager w3) (key (schManager w2)) (contextHandle ssc) /\
    key (schManager w3) = key (schManager w2) /\
    statusCode (res w3) = 401 /\
    ended (res w3) = true /\
    headers (res w3) !! "WWW-Authenticate" =
      Some ("Negotiate " +:+ encode env (buffer0 (server_SecBufferDesc ssc))) /\
    continuation_token (res w3) =
      Some (encode env (buffer0 (server_SecBufferDesc ssc))) /\
    nexts (trace w3) = nexts (trace w2) /\
    forall req' clock w2',
      selected_key env opts req' (schManager w3) = key (schManager w3) ->
      prelude env opts req' (next_request clock w3) = Returned tt w2' ->
      mgr_getServerContextHandle (schManager w2') = Some (contextHandle ssc).
Proof.
  intros Hauth Hprefix Hprelude Hstep Hstatus.
  rewrite run_middleware, (run_to_step _ _ _ _ _ Hauth Hprefix Hprelude).
  rewrite run_negotiate, Hstep, Hstatus. cbn [String.eqb Ascii.eqb Bool.eqb].
  rewrite run_continue_needed. run.
  match goal with |- exists w3, Returned tt ?W = _ /\ _ => set (w3 := W) end.
  exists w3. split; [reflexivity|].
  assert (Hmgr : schManager w3 = mgr_set (contextHandle ssc) (schManager w2))
    by reflexivity.
  assert (Hhdr : headers (res w3) !! "WWW-Authenticate" =
                 Some ("Negotiate " +:+ encode env (buffer0 (server_SecBufferDesc ssc))))
    by apply lookup_insert_eq.
  rewrite Hmgr.
  split; [apply mgr_set_pending|].
  split; [reflexivity|]. split; [reflexivity|]. split; [reflexivity|].
  split; [exact Hhdr|].
  split; [apply continuation_token_header, Hhdr|].
  split.
  - subst w3. cbn [trace with_res log_event log_debug with_schManager after_step at_step].
    unfold nexts. rewrite !omap_app. cbn. rewrite !app_nil_r. reflexivity.
  - intros req' clock w2' Hkey Hnext.
    apply prelude_key in Hnext as [Hk Ht].
    rewrite next_request_schManager, Hmgr in Hk, Ht.
    unfold mgr_getServerContextHandle. rewrite Hk, Ht, Hkey.
    exact (mgr_get_set _ _).
Qed.


(** C2, as the code has it: on a status that is neither CONTINUE_NEEDED
    nor OK, the handle returned by the step is stored under the key and
    nothing frees it; nothing is written to the response, no session is
    attached, and [next] is called once, without an error. *)
Theorem failure_status_passes_through opts req a w w2 ssc :
  authorization req = Some a ->
  startsWith a "Negotiate " = true ->
  prelude env opts req w = Returned tt w2 ->
  sspi_AcceptSecurityContext env (step_input env a w2) = inr ssc ->
  SECURITY_STATUS ssc <> "SEC_I_CONTINUE_NEEDED" ->
  SECURITY_STATUS ssc <> "SEC_E_OK" ->
  exists w3 evs,
    middleware env opts req w = Returned tt w3 /\
    trace w3 = trace w2 ++ evs /\
    nexts evs = [None] /\
    req_sso w3 = req_sso w2 /\
    res w3 = res w2 /\
    releases evs = 0%nat /\
    deletions evs = [] /\
    schManager w3 = mgr_set (contextHandle ssc) (schManager w2) /\
    pending (schManager w3) (key (schManager w2)) (contextHandle ssc).
Proof.
  intros Hauth Hprefix Hprelude Hstep Hcont Hok.
  rewrite run_middleware, (run_to_step _ _ _ _ _ Hauth Hprefix Hprelude).
  rewrite run_negotiate, Hstep.
  apply String.eqb_neq in Hcont, Hok. rewrite Hcont, Hok. run.
  eexists. eexists. split; [reflexivity|].
  cbn [schManager res trace req_sso with_res with_schManager with_req_sso
       log_event log_debug after_step at_step].
  split; [rewrite <- !app_assoc; cbn [app]; reflexivity|].
  repeat (split; [reflexivity|]).
  apply mgr_set_pending.
Qed.

(** ** Errors thrown in the [try] block *)

(** The only statement of the block that throws is the provider's step. *)
Lemma try_block_thrown opts req w e w' :
  try_block env opts req w = Thrown e w' ->
  exists w2 a,
    prelude env opts req w = Returned tt w2 /\
    authorization req = Some a /\
    startsWith a "Negotiate " = true /\
    sspi_AcceptSecurityContext env (step_input env a w2) = inl e /\
    w' = at_step env a w2.
Proof.
  destruct (prelude_returns opts req w) as (w2 & evs & Hprelude & _).
  rewrite (run_try_block _ _ _ _ Hprelude).
  destruct (falsy (authorization req)) eqn:Hfalsy.
  { rewrite run_no_authorization. cbn zeta.
    destruct (slot_free _ _); discriminate. }
  destruct (authorization req) as [a|] eqn:Hauth; [|discriminate].
  cbn [from_option id].
  destruct (startsWith a "Negotiate ") eqn:Hprefix; cbn [negb];
    [|unfold malformed; run; discriminate].
  rewrite run_negotiate.
  destruct (sspi_AcceptSecurityContext env (step_input env a w2)) as [e0|ssc] eqn:Hstep.
  - intros [= <- <-]. exists w2, a. auto.
  - destruct (String.eqb (SECURITY_STATUS ssc) "SEC_I_CONTINUE_NEEDED").
    { rewrite run_continue_needed. discriminate. }
    destruct (String.eqb (SECURITY_STATUS ssc) "SEC_E_OK").
    { rewrite (run_completed _ _ _ _ (contextHandle ssc))
        by (cbn [after_step schManager with_schManager log_debug]; apply mgr_get_set).
      discriminate. }
    run. discriminate.
Qed.

(** C10: whenever the [try] block throws, the handler returns after two
    calls of [next] in the same request, the first with the 400 error of
    the [catch] block and the second, the trailing one, without
    argument. *)
Theorem thrown_in_try_calls_next_twice opts req w e w' :
  try_block env opts req w = Thrown e w' ->
  exists w3 evs,
    middleware env opts req w = Returned tt w3 /\
    trace w3 =
      trace w' ++ [EvConsoleError e;
                   EvNext (Some (createError 400 unexpected_message));
                   EvNext None] /\
    trace w3 = trace w ++ evs /\
    nexts evs = [Some (createError 400 unexpected_message); None].
Proof.
  intros Hthrown.
  destruct (try_block_thrown _ _ _ _ _ Hthrown)
    as (w2 & a & Hprelude & Hauth & Hprefix & Hstep & ->).
  destruct (prelude_returns opts req w)
    as (w2' & evs & Hprelude' & Htrace & Hnexts & _).
  rewrite Hprelude in Hprelude'. injection Hprelude' as <-.
  rewrite run_middleware, Hthrown. run. rewrite run_catch_block. run.
  eexists. eexists. split; [reflexivity|].
  cbn [trace log_event log_debug at_step]. rewrite Htrace.
  split; [rewrite <- !app_assoc; reflexivity|].
  split; [rewrite <- !app_assoc; reflexivity|].
  unfold nexts. rewrite !omap_app. fold (nexts evs). rewrite Hnexts. reflexivity.
Qed.

(** C1, as the code has it: when the provider's step throws on a
    well-formed header, the error is caught and logged, and [next] is
    called with the 400 error whose message is the fixed text of the
    [catch] block, before the trailing [next()]; the response and the
    session are untouched, [release] is not called, and the manager is
    left as it was when the step was called. *)
Theorem step_failure_logged_generic_400 opts req a w w2 e :
  authorization req = Some a ->
  startsWith a "Negotiate " = true ->
  prelude env opts req w = Returned tt w2 ->
  sspi_AcceptSecurityContext env (step_input env a w2) = inl e ->
  exists w3,
    middleware env opts req w = Returned tt w3 /\
    trace w3 =
      trace w2 ++ [EvSchManager GetServerContextHandle;
                   EvAcceptSecurityContext (step_input env a w2);
                   EvConsoleError e;
                   EvNext (Some (createError 400 unexpected_message));
                   EvNext None] /\
    res w3 = res w2 /\
    req_sso w3 = req_sso w2 /\
    schManager w3 = schManager w2.
Proof.
  intros Hauth Hprefix Hprelude Hstep.
  rewrite run_middleware, (run_to_step _ _ _ _ _ Hauth Hprefix Hprelude).
  rewrite run_negotiate, Hstep. run. rewrite run_catch_block. run.
  eexists. split; [reflexivity|].
  cbn [trace res req_sso schManager log_event log_debug at_step].
  split; [rewrite <- !app_assoc; reflexivity|]. auto.
Qed.

(** ** The mechanism label *)

Lemma prelude_cookie opts req1 req2 w :
  cookie req1 = cookie req2 ->
  prelude env opts req1 w = prelude env opts req2 w.
Proof.
  intros Hcookie. unfold prelude, schManager_setCookieMode.
  rewrite Hcookie. reflexivity.
Qed.

Lemma step_input_header token w :
  step_input env ("Negotiate " +:+ token) w =
    accept_input (credential w) (decode env token)
      (mgr_getServerContextHandle (schManager w)).
Proof. unfold step_input. rewrite token_of_header. reflexivity. Qed.

(** C8: two requests that differ only in the token of a well-formed
    header, and on whose tokens the provider's step answers alike, are
    handled alike, whatever labels their tokens get: same exit, same
    response (status, headers), same sequence of calls to the provider,
    the manager, the response and [next], same manager and credential
    afterwards, and the same session up to the label recorded in it. *)
Theorem label_never_steers opts req1 req2 token1 token2 w :
  authorization req1 = Some ("Negotiate " +:+ token1) ->
  authorization req2 = Some ("Negotiate " +:+ token2) ->
  cookie req1 = cookie req2 ->
  (forall c h,
     sspi_AcceptSecurityContext env (accept_input c (decode env token1) h) =
     sspi_AcceptSecurityContext env (accept_input c (decode env token2) h)) ->
  observe (middleware env opts req1 w) = observe (middleware env opts req2 w).
Proof.
  intros Hauth1 Hauth2 Hcookie Hstep.
  destruct (prelude_returns opts req1 w) as (w2 & evs & Hprelude1 & _).
  assert (Hprelude2 : prelude env opts req2 w = Returned tt w2)
    by (rewrite <- (prelude_cookie opts req1 req2 w Hcookie); exact Hprelude1).
  rewrite !run_middleware.
  rewrite (run_to_step _ _ _ _ _ Hauth1 (startsWith_header token1) Hprelude1).
  rewrite (run_to_step _ _ _ _ _ Hauth2 (startsWith_header token2) Hprelude2).
  rewrite !run_negotiate.
  assert (Hinput : sspi_AcceptSecurityContext env (step_input env ("Negotiate " +:+ token1) w2)
                 = sspi_AcceptSecurityContext env (step_input env ("Negotiate " +:+ token2) w2))
    by (rewrite !step_input_header; apply Hstep).
  rewrite Hinput.
  destruct (sspi_AcceptSecurityContext env (step_input env ("Negotiate " +:+ token2) w2))
    as [e|ssc].
  - run. rewrite !run_catch_block. run.
    unfold mret, M_ret, ret, observe, observe_world. cbn beta iota.
    cbn [trace res req_sso schManager credential tsExpiry log_event log_debug at_step].
    rewrite !fmap_app. cbn [fmap list_fmap erase_token step_input accept_input
                            in_credential in_contextHandle].
    reflexivity.
  - destruct (String.eqb (SECURITY_STATUS ssc) "SEC_I_CONTINUE_NEEDED").
    { rewrite !run_continue_needed. run.
      unfold mret, M_ret, ret, observe, observe_world. cbn beta iota.
      cbn [trace res req_sso schManager credential tsExpiry log_event log_debug
           with_res with_schManager at_step after_step].
      rewrite !fmap_app. cbn [fmap list_fmap erase_token step_input accept_input
                              in_credential in_contextHandle].
      reflexivity. }
    destruct (String.eqb (SECURITY_STATUS ssc) "SEC_E_OK").
    { rewrite !(run_completed _ _ _ _ (contextHandle ssc))
        by (cbn [after_step schManager with_schManager log_debug]; apply mgr_get_set).
      run.
      unfold mret, M_ret, ret, observe, observe_world. cbn beta iota.
      cbn [trace res req_sso schManager credential tsExpiry log_event log_debug
           with_res with_schManager with_req_sso at_step after_step].
      rewrite !fmap_app. cbn [fmap list_fmap option_fmap option_map erase_token erase_label
                              step_input accept_input in_credential in_contextHandle
                              sso_user sso_owner].
      reflexivity. }
    run.
    unfold mret, M_ret, ret, observe, observe_world. cbn beta iota.
    cbn [trace res req_sso schManager credential tsExpiry log_event log_debug
         with_res with_schManager at_step after_step].
    rewrite !fmap_app. cbn [fmap list_fmap erase_token step_input accept_input
                            in_credential in_contextHandle].
    reflexivity.
Qed.

End Claims.

(** ** The claims on examples *)

Lemma auth_conflict_throws_witness :
  truthy (useActiveDirectory
            (Object_assign default_opts
               {| useGroups := Absent; useActiveDirectory := Bool true;
                  useOwner := Absent; useCookies := Bool true |})) = true /\
  truthy (useCookies
            (Object_assign default_opts
               {| useGroups := Absent; useActiveDirectory := Bool true;
                  useOwner := Absent; useCookies := Bool true |})) = true /\
  auth (example_env completing)
       {| useGroups := Absent; useActiveDirectory := Bool true;
          useOwner := Absent; useCookies := Bool true |} =
    ([], inl (Error conflict_message)).
Proof.
  split; [reflexivity|]. split; [reflexivity|].
  apply auth_conflict_throws; reflexivity.
Defined.

Lemma auth_useCookies_alone_throws :
  useCookies {| useGroups := Absent; useActiveDirectory := Absent;
                useOwner := Absent; useCookies := Bool true |} = Bool true /\
  (useActiveDirectory {| useGroups := Absent; useActiveDirectory := Absent;
                         useOwner := Absent; useCookies := Bool true |} = Absent \/
   useActiveDirectory {| useGroups := Absent; useActiveDirectory := Absent;
                         useOwner := Absent; useCookies := Bool true |} = Bool true) /\
  default_opts =
    {| useGroups := Bool true; useActiveDirectory := Bool true;
       useOwner := Bool false; useCookies := Bool false |} /\
  auth (example_env completing)
       {| useGroups := Absent; useActiveDirectory := Absent;
          useOwner := Absent; useCookies := Bool true |} =
    ([], inl (Error conflict_message)).
Proof.
  split; [reflexivity|]. split; [left; reflexivity|].
  apply (auth_useCookies_throws_by_default (example_env completing)
           {| useGroups := Absent; useActiveDirectory := Absent;
              useOwner := Absent; useCookies := Bool true |});
    [reflexivity | left; reflexivity].
Defined.

(** C9 as the spec words it fails: [auth({useCookies: true,
    useActiveDirectory: undefined})] has useCookies true and
    useActiveDirectory not set to false, and does not throw:
    [Object.assign] copies the [undefined] over the default, the conflict
    check reads a falsy useActiveDirectory, and the middleware is
    returned with cookie mode on. *)
Lemma auth_undefined_directory_does_not_throw :
  useCookies cookies_with_undefined_directory = Bool true /\
  useActiveDirectory cookies_with_undefined_directory <> Bool false /\
  useActiveDirectory (Object_assign default_opts cookies_with_undefined_directory)
    = Undefined /\
  auth (example_env completing) cookies_with_undefined_directory
    <> ([], inl (Error conflict_message)) /\
  exists mw,
    auth (example_env completing) cookies_with_undefined_directory
      = ([EvAcquireCredentialsHandle "Negotiate"], inr mw) /\
    truthy (useCookies (opts mw)) = true /\
    truthy (useActiveDirectory (opts mw)) = false.
Proof.
  split; [reflexivity|]. split; [discriminate|]. split; [reflexivity|].
  split; [discriminate|].
  eexists. split; [reflexivity|]. split; reflexivity.
Qed.

Lemma checkCredentials_renewal_witness :
  tsExpiry expired_world < now expired_world /\
  exists w',
    checkCredentials (example_env completing) expired_world = Returned tt w' /\
    trace w' = trace expired_world ++
                 [EvFreeCredentialsHandle (credential expired_world);
                  EvAcquireCredentialsHandle "Negotiate"] /\
    credential w' =
      cwe_credential (sspi_AcquireCredentialsHandle (example_env completing) "Negotiate") /\
    tsExpiry w' =
      cwe_tsExpiry (sspi_AcquireCredentialsHandle (example_env completing) "Negotiate") /\
    schManager w' = schManager expired_world /\
    res w' = res expired_world /\ req_sso w' = req_sso expired_world.
Proof.
  split; [reflexivity|].
  apply (checkCredentials_renewal (example_env completing) expired_world).
  reflexivity.
Defined.

(** C5 as the spec words it fails: on an expired credential the old handle
    is freed first, and the new credential is acquired after it; no
    acquisition precedes the release of the old handle. *)
Lemma renewal_frees_before_acquiring :
  trace (final_world (checkCredentials (example_env completing) expired_world)) =
    [EvFreeCredentialsHandle 1%nat; EvAcquireCredentialsHandle "Negotiate"] /\
  occurs_before is_acquire (is_free_of 1%nat)
    (trace (final_world (checkCredentials (example_env completing) expired_world)))
    = false /\
  occurs_before (is_free_of 1%nat) is_acquire
    (trace (final_world (checkCredentials (example_env completing) expired_world)))
    = true.
Proof. repeat split; vm_compute; reflexivity. Qed.

Lemma no_authorization_witness :
  falsy (authorization request_without_header) = true /\
  exists w2 w_wait,
    prelude (example_env completing) default_opts request_without_header example_world
      = Returned tt w2 /\
    trace w_wait = trace w2 ++ [EvSchManager WaitForReleased] /\
    res w_wait = res w2 /\ schManager w_wait = schManager w2 /\
    statusCode (res w2) = statusCode (res example_world) /\
    body (res w2) = body (res example_world) /\
    ended (res w2) = ended (res example_world) /\
    if slot_free (key (schManager w2)) (schManager w2) then
      exists w3,
        middleware (example_env completing) default_opts request_without_header
          example_world = Returned tt w3 /\
        challenged w_wait w3 /\ nexts (trace w3) = nexts (trace example_world)
    else
      exists resume,
        middleware (example_env completing) default_opts request_without_header
          example_world = Awaiting (key (schManager w2)) w_wait resume /\
        forall w', exists w3,
          resume w' = Returned tt w3 /\
          challenged w' w3 /\ nexts (trace w3) = nexts (trace w').
Proof.
  split; [reflexivity|].
  apply (no_authorization_waits_then_challenges (example_env completing)
           default_opts request_without_header example_world).
  reflexivity.
Defined.

(** The request without a header on a fresh response, and the same request
    while the first leg of a negotiation holds the slot. *)
Example no_authorization_on_free_slot :
  let r := middleware (example_env completing) default_opts request_without_header
             example_world in
  observe r =
    {| obs_exit := ExitReturned;
       obs_res := {| statusCode := 401;
                     headers := {["WWW-Authenticate" := "Negotiate"]};
                     body := ""; ended := true |};
       obs_calls := [EvSchManager WaitForReleased; EvStatusCode 401;
                     EvSetHeader "WWW-Authenticate" "Negotiate"; EvEnd];
       obs_session := None;
       obs_schManager := new_ServerContextHandleManager 10000;
       obs_credential := 1%nat;
       obs_tsExpiry := 50000 |}.
Proof. vm_compute. reflexivity. Qed.

Example no_authorization_on_held_slot :
  let w := second_leg_world completing in
  let r := middleware (example_env completing) default_opts request_without_header w in
  obs_exit (observe r) = ExitAwaiting "connection" /\
  obs_res (observe r) = fresh_response /\
  obs_res (observe (wake r w)) = fresh_response /\
  obs_res (observe (wake r example_world)) =
    {| statusCode := 401; headers := {["WWW-Authenticate" := "Negotiate"]};
       body := ""; ended := true |}.
Proof. repeat split; vm_compute; reflexivity. Qed.

Lemma continue_needed_witness :
  authorization first_leg = Some "Negotiate YIIBAQ==" /\
  startsWith "Negotiate YIIBAQ==" "Negotiate " = true /\
  prelude (example_env completing) default_opts first_leg example_world
    = Returned tt example_world /\
  sspi_AcceptSecurityContext (example_env completing)
    (step_input (example_env completing) "Negotiate YIIBAQ==" example_world)
    = inr (security_context 7%nat "SEC_I_CONTINUE_NEEDED" [Byte.x4e; Byte.x54; Byte.x4c]) /\
  exists w3,
    middleware (example_env completing) default_opts first_leg example_world
      = Returned tt w3 /\
    pending (schManager w3) (key (schManager example_world)) 7%nat /\
    continuation_token (res w3) = Some "TlRM".
Proof.
  split; [reflexivity|]. split; [reflexivity|].
  split; [reflexivity|]. split; [reflexivity|].
  destruct (continue_needed_stores_and_challenges (example_env completing)
              default_opts first_leg "Negotiate YIIBAQ==" example_world example_world
              (security_context 7%nat "SEC_I_CONTINUE_NEEDED" [Byte.x4e; Byte.x54; Byte.x4c])
              eq_refl eq_refl eq_refl eq_refl eq_refl)
    as (w3 & Hrun & Hpending & _ & _ & _ & _ & Htoken & _).
  exists w3. split; [exact Hrun|]. split; [exact Hpending|]. exact Htoken.
Defined.

(** C4 as the spec words it fails on the length of the token: when the
    provider's output token has length zero, the CONTINUE_NEEDED response
    is the 401 challenge with an empty continuation token. *)
Lemma continue_needed_with_empty_token :
  let env := example_env empty_continuation in
  let r := middleware env default_opts first_leg example_world in
  sspi_AcceptSecurityContext env (step_input env "Negotiate YIIBAQ==" example_world)
    = inr (security_context 7%nat "SEC_I_CONTINUE_NEEDED" []) /\
  obs_exit (observe r) = ExitReturned /\
  statusCode (res (final_world r)) = 401 /\
  headers (res (final_world r)) !! "WWW-Authenticate" = Some "Negotiate " /\
  continuation_token (res (final_world r)) = Some "".
Proof. repeat split; vm_compute; reflexivity. Qed.


(** The two legs of a negotiation: the first leaves the handle pending
    under the key, the second attaches the session and leaves no entry. *)
Example two_leg_handshake :
  let env := example_env completing in
  let r1 := middleware env default_opts first_leg example_world in
  let r2 := middleware env default_opts second_leg (second_leg_world completing) in
  statusCode (res (final_world r1)) = 401 /\
  continuation_token (res (final_world r1)) = Some "TlRM" /\
  table (schManager (final_world r1)) !! "connection" = Some 7%nat /\
  deletions (trace (final_world r2)) = [7%nat] /\
  table (schManager (final_world r2)) !! "connection" = None /\
  sso_method <$> req_sso (final_world r2) = Some "Kerberos" /\
  nexts (trace (final_world r2)) = [None].
Proof. repeat split; vm_compute; reflexivity. Qed.

Lemma failure_status_passes_through_witness :
  authorization second_leg = Some "Negotiate YIICAg==" /\
  startsWith "Negotiate YIICAg==" "Negotiate " = true /\
  prelude (example_env denying) default_opts second_leg (second_leg_world denying)
    = Returned tt (second_leg_world denying) /\
  sspi_AcceptSecurityContext (example_env denying)
    (step_input (example_env denying) "Negotiate YIICAg==" (second_leg_world denying))
    = inr (security_context 7%nat "SEC_E_LOGON_DENIED" []) /\
  SECURITY_STATUS (security_context 7%nat "SEC_E_LOGON_DENIED" []) <> "SEC_I_CONTINUE_NEEDED" /\
  SECURITY_STATUS (security_context 7%nat "SEC_E_LOGON_DENIED" []) <> "SEC_E_OK" /\
  exists w3 evs,
    middleware (example_env denying) default_opts second_leg (second_leg_world denying)
      = Returned tt w3 /\
    trace w3 = trace (second_leg_world denying) ++ evs /\
    nexts evs = [None] /\
    req_sso w3 = None /\
    res w3 = fresh_response /\
    releases evs = 0%nat /\
    pending (schManager w3) "connection" 7%nat.
Proof.
  split; [reflexivity|]. split; [reflexivity|].
  split; [vm_compute; reflexivity|]. split; [vm_compute; reflexivity|].
  split; [discriminate|]. split; [discriminate|].
  destruct (failure_status_passes_through (example_env denying) default_opts
              second_leg "Negotiate YIICAg==" (second_leg_world denying)
              (second_leg_world denying) (security_context 7%nat "SEC_E_LOGON_DENIED" []))
    as (w3 & evs & Hrun & Htrace & Hnexts & Hsso & Hres & Hrel & _ & _ & Hpending);
    [reflexivity | reflexivity | vm_compute; reflexivity
    | vm_compute; reflexivity | discriminate | discriminate |].
  exists w3, evs. auto 10.
Defined.

(** C2 as the spec words it fails: a slot held for the key when the step
    answers LOGON_DENIED is still held when the handler has called [next];
    [release] has not been called. *)
Lemma denied_keeps_slot :
  let env := example_env denying in
  let w := second_leg_world denying in
  let r := middleware env default_opts second_leg w in
  slot_free "connection" (schManager w) = false /\
  sspi_AcceptSecurityContext env (step_input env "Negotiate YIICAg==" w)
    = inr (security_context 7%nat "SEC_E_LOGON_DENIED" []) /\
  obs_exit (observe r) = ExitReturned /\
  nexts (trace (final_world r)) = [None] /\
  releases (trace (final_world r)) = 0%nat /\
  slot_free "connection" (schManager (final_world r)) = false /\
  table (schManager (final_world r)) !! "connection" = Some 7%nat.
Proof. repeat split; vm_compute; reflexivity. Qed.

Lemma step_failure_logged_generic_400_witness :
  authorization second_leg = Some "Negotiate YIICAg==" /\
  startsWith "Negotiate YIICAg==" "Negotiate " = true /\
  prelude (example_env failing) default_opts second_leg (second_leg_world failing)
    = Returned tt (second_leg_world failing) /\
  sspi_AcceptSecurityContext (example_env failing)
    (step_input (example_env failing) "Negotiate YIICAg==" (second_leg_world failing))
    = inl (Error "AcceptSecurityContext: SEC_E_INTERNAL_ERROR") /\
  exists w3,
    middleware (example_env failing) default_opts second_leg (second_leg_world failing)
      = Returned tt w3 /\
    trace w3 =
      trace (second_leg_world failing) ++
        [EvSchManager GetServerContextHandle;
         EvAcceptSecurityContext
           (step_input (example_env failing) "Negotiate YIICAg==" (second_leg_world failing));
         EvConsoleError (Error "AcceptSecurityContext: SEC_E_INTERNAL_ERROR");
         EvNext (Some (createError 400 unexpected_message));
         EvNext None] /\
    res w3 = res (second_leg_world failing) /\
    req_sso w3 = req_sso (second_leg_world failing) /\
    schManager w3 = schManager (second_leg_world failing).
Proof.
  split; [reflexivity|]. split; [reflexivity|].
  split; [vm_compute; reflexivity|]. split; [vm_compute; reflexivity|].
  apply (step_failure_logged_generic_400 (example_env failing) default_opts
           second_leg "Negotiate YIICAg==" (second_leg_world failing)
           (second_leg_world failing) (Error "AcceptSecurityContext: SEC_E_INTERNAL_ERROR"));
    [reflexivity | reflexivity | vm_compute; reflexivity | vm_compute; reflexivity].
Defined.

(** C1 as the spec words it fails: a slot held for the key when the step
    throws is still held when the handler returns; [release] has not been
    called and the context has not been deleted. *)
Lemma step_failure_keeps_slot :
  let env := example_env failing in
  let w := second_leg_world failing in
  let r := middleware env default_opts second_leg w in
  slot_free "connection" (schManager w) = false /\
  sspi_AcceptSecurityContext env (step_input env "Negotiate YIICAg==" w)
    = inl (Error "AcceptSecurityContext: SEC_E_INTERNAL_ERROR") /\
  obs_exit (observe r) = ExitReturned /\
  nexts (trace (final_world r)) = [Some (createError 400 unexpected_message); None] /\
  releases (trace (final_world r)) = 0%nat /\
  deletions (trace (final_world r)) = [] /\
  slot_free "connection" (schManager (final_world r)) = false /\
  table (schManager (final_world r)) !! "connection" = Some 7%nat.
Proof. repeat split; vm_compute; reflexivity. Qed.

Lemma thrown_in_try_calls_next_twice_witness :
  try_block (example_env failing) default_opts second_leg (second_leg_world failing)
    = Thrown (Error "AcceptSecurityContext: SEC_E_INTERNAL_ERROR")
        (at_step (example_env failing) "Negotiate YIICAg==" (second_leg_world failing)) /\
  exists w3 evs,
    middleware (example_env failing) default_opts second_leg (second_leg_world failing)
      = Returned tt w3 /\
    trace w3 =
      trace (at_step (example_env failing) "Negotiate YIICAg==" (second_leg_world failing))
        ++ [EvConsoleError (Error "AcceptSecurityContext: SEC_E_INTERNAL_ERROR");
            EvNext (Some (createError 400 unexpected_message));
            EvNext None] /\
    trace w3 = trace (second_leg_world failing) ++ evs /\
    nexts evs = [Some (createError 400 unexpected_message); None].
Proof.
  split; [vm_compute; reflexivity|].
  apply (thrown_in_try_calls_next_twice (example_env failing) default_opts second_leg
           (second_leg_world failing)).
  vm_compute. reflexivity.
Defined.

Lemma label_never_steers_witness :
  authorization (request_with_token "YIICAg==") = Some ("Negotiate " +:+ "YIICAg==") /\
  authorization (request_with_token "TlRMTVNT") = Some ("Negotiate " +:+ "TlRMTVNT") /\
  cookie (request_with_token "YIICAg==") = cookie (request_with_token "TlRMTVNT") /\
  (forall c h,
     sspi_AcceptSecurityContext (example_env completing)
       (accept_input c (decode (example_env completing) "YIICAg==") h) =
     sspi_AcceptSecurityContext (example_env completing)
       (accept_input c (decode (example_env completing) "TlRMTVNT") h)) /\
  method_of "YIICAg==" = "Kerberos" /\
  method_of "TlRMTVNT" = "NTLM" /\
  observe (middleware (example_env completing) default_opts
             (request_with_token "YIICAg==") (second_leg_world completing)) =
  observe (middleware (example_env completing) default_opts
             (request_with_token "TlRMTVNT") (second_leg_world completing)).
Proof.
  split; [reflexivity|]. split; [reflexivity|]. split; [reflexivity|].
  split; [intros c h; reflexivity|].
  split; [reflexivity|]. split; [reflexivity|].
  apply (label_never_steers (example_env completing) default_opts
           (request_with_token "YIICAg==") (request_with_token "TlRMTVNT")
           "YIICAg==" "TlRMTVNT" (second_leg_world completing));
    [reflexivity | reflexivity | reflexivity | intros c h; reflexivity].
Defined.

(** The label is recorded in the session, and nowhere else in what is
    observed. *)
Example label_is_recorded :
  let env := example_env completing in
  let w := second_leg_world completing in
  sso_method <$> req_sso (final_world
    (middleware env default_opts (request_with_token "YIICAg==") w)) = Some "Kerberos" /\
  sso_method <$> req_sso (final_world
    (middleware env default_opts (request_with_token "TlRMTVNT") w)) = Some "NTLM".
Proof. repeat split; vm_compute; reflexivity. Qed.

(** From construction to the first request: with no options the defaults
    are kept, the credential is acquired once, and a first request without
    a header is answered by the challenge. *)
Example auth_then_first_request :
  exists mw,
    auth (example_env completing) empty_options =
      ([EvAcquireCredentialsHandle "Negotiate"], inr mw) /\
    opts mw = default_opts /\
    initial_schManager mw = new_ServerContextHandleManager 10000 /\
    let r := middleware (example_env completing) (opts mw) request_without_header
               (first_world mw 1000 [EvAcquireCredentialsHandle "Negotiate"]) in
    obs_exit (observe r) = ExitReturned /\
    statusCode (res (final_world r)) = 401 /\
    continuation_token (res (final_world r)) = None /\
    headers (res (final_world r)) !! "WWW-Authenticate" = Some "Negotiate".
Proof.
  eexists. split; [reflexivity|].
  repeat split; vm_compute; reflexivity.
Qed.

(** ** The paths of a request *)

Section Paths.
Variable env : Environment.

(** What the statements before the reading of the header do and leave. *)
Lemma prelude_frame opts req w w2 :
  prelude env opts req w = Returned tt w2 ->
  exists pre,
    trace w2 = trace w ++ pre /\
    nexts pre = [] /\ deletions pre = [] /\ releases pre = 0%nat /\
    steps pre = [] /\ logged_errors pre = [] /\
    credential_calls pre =
      (if expired w
       then [EvFreeCredentialsHandle (credential w);
             EvAcquireCredentialsHandle "Negotiate"]
       else []) /\
    credential w2 =
      (if expired w
       then cwe_credential (sspi_AcquireCredentialsHandle env "Negotiate")
       else credential w) /\
    req_sso w2 = req_sso w /\
    statusCode (res w2) = statusCode (res w) /\
    body (res w2) = body (res w) /\
    ended (res w2) = ended (res w) /\
    headers (res w2) !! "WWW-Authenticate" = headers (res w) !! "WWW-Authenticate" /\
    table (schManager w2) = table (schManager w).
Proof.
  unfold prelude, expired. run. rewrite run_checkCredentials.
  destruct (tsExpiry w <? now w); run;
    (destruct (truthy (useCookies opts)); run;
     [rewrite run_setCookieMode; destruct (cookie req)|]);
    intros [= <-]; cbn [trace credential now res req_sso schManager
                         log_event with_res with_schManager
                         with_credential with_tsExpiry
                         statusCode body ended headers];
    rewrite <- ?app_assoc; cbn [app].
  all: try (eexists; split; [reflexivity|]; repeat split; try reflexivity;
            rewrite lookup_insert_ne by discriminate; reflexivity).
  all: exists []; rewrite app_nil_r; repeat split; reflexivity.
Qed.

Ltac show_leaves :=
  unfold leaves, challenge, with_authenticate;
  cbn [trace res schManager req_sso credential tsExpiry now
       log_event log_debug with_res with_schManager with_req_sso
       after_step at_step statusCode headers body ended];
  rewrite <- ?app_assoc; cbn [app]; repeat split; reflexivity.

(** Every way through the handler after the reading of the header, with
    the calls it makes and what it leaves. *)
Lemma middleware_paths opts req w w2 :
  prelude env opts req w = Returned tt w2 ->
  (falsy (authorization req) = true /\
   if slot_free (key (schManager w2)) (schManager w2) then
     exists w3,
       middleware env opts req w = Returned tt w3 /\
       leaves w2 w3
         [EvSchManager WaitForReleased; EvStatusCode 401;
          EvSetHeader "WWW-Authenticate" "Negotiate"; EvEnd]
         (challenge "Negotiate" (res w2)) (schManager w2) (req_sso w2)
   else
     exists w_wait resume,
       middleware env opts req w = Awaiting (key (schManager w2)) w_wait resume /\
       leaves w2 w_wait [EvSchManager WaitForReleased]
         (res w2) (schManager w2) (req_sso w2) /\
       forall w', exists w3,
         resume w' = Returned tt w3 /\
         leaves w' w3
           [EvStatusCode 401; EvSetHeader "WWW-Authenticate" "Negotiate"; EvEnd]
           (challenge "Negotiate" (res w')) (schManager w') (req_sso w'))
  \/
  (exists a,
     authorization req = Some a /\ falsy (Some a) = false /\
     startsWith a "Negotiate " = false /\
     exists w3,
       middleware env opts req w = Returned tt w3 /\
       leaves w2 w3
         [EvNext (Some (createError 400 ("Malformed authentication token " +:+ a)))]
         (res w2) (schManager w2) (req_sso w2))
  \/
  (exists a,
     authorization req = Some a /\ falsy (Some a) = false /\
     startsWith a "Negotiate " = true /\
     exists w3,
       middleware env opts req w = Returned tt w3 /\
       match sspi_AcceptSecurityContext env (step_input env a w2) with
       | inl e =>
           leaves w2 w3
             [EvSchManager GetServerContextHandle;
              EvAcceptSecurityContext (step_input env a w2);
              EvConsoleError e;
              EvNext (Some (createError 400 unexpected_message));
              EvNext None]
             (res w2) (schManager w2) (req_sso w2)
       | inr ssc =>
           if String.eqb (SECURITY_STATUS ssc) "SEC_I_CONTINUE_NEEDED" then
             leaves w2 w3
               [EvSchManager GetServerContextHandle;
                EvAcceptSecurityContext (step_input env a w2);
                EvSchManager (SetHandle (contextHandle ssc));
                EvStatusCode 401;
                EvSetHeader "WWW-Authenticate" (negotiate_header env ssc);
                EvEnd]
               (challenge (negotiate_header env ssc) (res w2))
               (mgr_set (contextHandle ssc) (schManager w2)) (req_sso w2)
           else if String.eqb (SECURITY_STATUS ssc) "SEC_E_OK" then
             leaves w2 w3
               [EvSchManager GetServerContextHandle;
                EvAcceptSecurityContext (step_input env a w2);
                EvSchManager (SetHandle (contextHandle ssc));
                EvSetHeader "WWW-Authenticate" (negotiate_header env ssc);
                EvSchManager GetServerContextHandle;
                EvSSOLoad (contextHandle ssc);
                EvDeleteSecurityContext (contextHandle ssc);
                EvSchManager Release;
                EvNext None]
               (with_authenticate (negotiate_header env ssc) (res w2))
               (mgr_release (mgr_set (contextHandle ssc) (schManager w2)))
               (Some {| sso_method := method_of (token_of a);
                        sso_user := fst (sso_load env (contextHandle ssc) opts);
                        sso_owner := snd (sso_load env (contextHandle ssc) opts) |})
           else
             leaves w2 w3
               [EvSchManager GetServerContextHandle;
                EvAcceptSecurityContext (step_input env a w2);
                EvSchManager (SetHandle (contextHandle ssc));
                EvNext None]
               (res w2) (mgr_set (contextHandle ssc) (schManager w2)) (req_sso w2)
       end).
Proof.
  intros Hprelude.
  destruct (falsy (authorization req)) eqn:Hfalsy.
  { left. split; [reflexivity|].
    rewrite run_middleware, (run_try_block _ _ _ _ _ Hprelude), Hfalsy,
      run_no_authorization.
    cbn zeta.
    destruct (slot_free (key (schManager w2)) (schManager w2)).
    - cbn [catch_result bind_result]. run. eexists. split; [reflexivity|].
      show_leaves.
    - cbn [catch_result bind_result]. eexists. eexists.
      split; [reflexivity|]. split; [show_leaves|].
      intros w'. run. eexists. split; [reflexivity|]. show_leaves. }
  right.
  destruct (authorization req) as [a|] eqn:Hauth; [|discriminate].
  destruct (startsWith a "Negotiate ") eqn:Hprefix.
  - right. exists a. split; [reflexivity|]. split; [exact Hfalsy|].
    split; [exact Hprefix|].
    rewrite run_middleware, (run_to_step _ _ _ _ _ _ Hauth Hprefix Hprelude).
    rewrite run_negotiate.
    destruct (sspi_AcceptSecurityContext env (step_input env a w2)) as [e|ssc].
    + run. rewrite run_catch_block. run. eexists. split; [reflexivity|].
      show_leaves.
    + destruct (String.eqb (SECURITY_STATUS ssc) "SEC_I_CONTINUE_NEEDED").
      { rewrite run_continue_needed. run. eexists. split; [reflexivity|].
        show_leaves. }
      destruct (String.eqb (SECURITY_STATUS ssc) "SEC_E_OK").
      { rewrite (run_completed _ _ _ _ _ (contextHandle ssc))
          by (cbn [after_step schManager with_schManager log_debug]; apply mgr_get_set).
        run. eexists. split; [reflexivity|]. show_leaves. }
      run. eexists. split; [reflexivity|]. show_leaves.
  - left. exists a. split; [reflexivity|]. split; [exact Hfalsy|].
    split; [exact Hprefix|].
    rewrite run_middleware, (run_try_block _ _ _ _ _ Hprelude), Hauth, Hfalsy.
    cbn [from_option id]. rewrite Hprefix. cbn [negb].
    unfold malformed. run. eexists. split; [reflexivity|]. show_leaves.
Qed.

Lemma nexts_app tr1 tr2 : nexts (tr1 ++ tr2) = nexts tr1 ++ nexts tr2.
Proof. apply omap_app. Qed.

Lemma deletions_app tr1 tr2 : deletions (tr1 ++ tr2) = deletions tr1 ++ deletions tr2.
Proof. apply omap_app. Qed.

Lemma steps_app tr1 tr2 : steps (tr1 ++ tr2) = steps tr1 ++ steps tr2.
Proof. apply omap_app. Qed.

Lemma logged_errors_app tr1 tr2 :
  logged_errors (tr1 ++ tr2) = logged_errors tr1 ++ logged_errors tr2.
Proof. apply omap_app. Qed.

Lemma releases_app tr1 tr2 : releases (tr1 ++ tr2) = (releases tr1 + releases tr2)%nat.
Proof. unfold releases. rewrite omap_app. apply length_app. Qed.

Lemma credential_calls_app tr1 tr2 :
  credential_calls (tr1 ++ tr2) = credential_calls tr1 ++ credential_calls tr2.
Proof. apply List.filter_app. Qed.

(** The world reached when the header is read, with what came before. *)
Ltac at_header opts req w w2 pre :=
  let Hprelude := fresh "Hprelude" in
  destruct (prelude_returns env opts req w) as (w2 & ? & Hprelude & _);
  let Hframe := fresh "Hframe" in
  pose proof (prelude_frame _ _ _ _ Hprelude) as Hframe;
  destruct Hframe as
    (pre & Hpre & Hpre_nexts & Hpre_del & Hpre_rel & Hpre_steps & Hpre_err
         & Hpre_cred & Hcred & Hsso & Hstatus & Hbody & Hended & Hheader & Htable).

(** X2: a header that does not start with [Negotiate ] is answered through
    [next] with a 400 error that names the header; the provider's step is
    not called, and the response, the manager and the session are left as
    they were when the header was read. *)
Theorem malformed_header_is_rejected opts req a w :
  authorization req = Some a ->
  a <> "" ->
  startsWith a "Negotiate " = false ->
  exists w2 w3,
    prelude env opts req w = Returned tt w2 /\
    middleware env opts req w = Returned tt w3 /\
    trace w3 =
      trace w2 ++
        [EvNext (Some (createError 400 ("Malformed authentication token " +:+ a)))] /\
    res w3 = res w2 /\ schManager w3 = schManager w2 /\ req_sso w3 = req_sso w2.
Proof.
  intros Hauth Hne Hprefix.
  at_header opts req w w2 pre.
  exists w2.
  destruct (middleware_paths _ _ _ _ Hprelude)
    as [[Hfalsy _]|[(a' & Ha' & _ & _ & w3 & Hrun & Hl)|(a' & Ha' & _ & Hp & _)]].
  - rewrite Hauth in Hfalsy. destruct a; [congruence | discriminate].
  - rewrite Hauth in Ha'. injection Ha' as <-.
    exists w3. destruct Hl as (Ht & Hr & Hm & Hs & _). auto 10.
  - rewrite Hauth in Ha'. injection Ha' as <-. congruence.
Qed.

(** X4: a handler that returns has either answered itself, with a 401
    challenge whose [WWW-Authenticate] header starts with [Negotiate], the
    response ended and [next] not called, or called [next] and left the
    status, the body and the end of the response to the handlers
    downstream. *)
Theorem answers_or_passes opts req w w3 :
  middleware env opts req w = Returned tt w3 ->
  exists evs,
    trace w3 = trace w ++ evs /\
    ((nexts evs = [] /\
      statusCode (res w3) = 401 /\ ended (res w3) = true /\
      body (res w3) = body (res w) /\
      exists value,
        headers (res w3) !! "WWW-Authenticate" = Some value /\
        startsWith value "Negotiate" = true)
     \/
     (nexts evs <> [] /\
      statusCode (res w3) = statusCode (res w) /\
      ended (res w3) = ended (res w) /\
      body (res w3) = body (res w))).
Proof.
  intros Hreturned.
  at_header opts req w w2 pre.
  assert (Hneg : forall ssc, startsWith (negotiate_header env ssc) "Negotiate" = true)
    by (intros ssc; unfold negotiate_header, startsWith;
        change ("Negotiate " +:+ ?t)
          with (String "N" (String "e" (String "g" (String "o" (String "t"
               (String "i" (String "a" (String "t" (String "e" (String " " t))))))))));
        reflexivity).
  destruct (middleware_paths _ _ _ _ Hprelude)
    as [[Hfalsy Hpath]|[(a & _ & _ & _ & w3' & Hrun & Hl)|(a & _ & _ & _ & w3' & Hrun & Hl)]].
  - destruct (slot_free (key (schManager w2)) (schManager w2)).
    + destruct Hpath as (w3' & Hrun & Ht & Hr & _).
      rewrite Hrun in Hreturned. injection Hreturned as <-.
      eexists. rewrite Ht, Hpre, <- app_assoc. split; [reflexivity|]. left.
      rewrite nexts_app, Hpre_nexts, Hr. cbn [challenge statusCode ended body headers].
      repeat split; try reflexivity; try assumption.
      exists "Negotiate". split; [apply lookup_insert_eq | reflexivity].
    + destruct Hpath as (w_wait & resume & Hrun & _). congruence.
  - destruct Hl as (Ht & Hr & _).
    rewrite Hrun in Hreturned. injection Hreturned as <-.
    eexists. rewrite Ht, Hpre, <- app_assoc. split; [reflexivity|]. right.
    rewrite nexts_app, Hpre_nexts, Hr. repeat split; try assumption. discriminate.
  - rewrite Hrun in Hreturned. injection Hreturned as <-.
    destruct (sspi_AcceptSecurityContext env (step_input env a w2)) as [e|ssc].
    { destruct Hl as (Ht & Hr & _).
      eexists. rewrite Ht, Hpre, <- app_assoc. split; [reflexivity|]. right.
      rewrite nexts_app, Hpre_nexts, Hr. repeat split; try assumption. discriminate. }
    destruct (String.eqb (SECURITY_STATUS ssc) "SEC_I_CONTINUE_NEEDED").
    { destruct Hl as (Ht & Hr & _).
      eexists. rewrite Ht, Hpre, <- app_assoc. split; [reflexivity|]. left.
      rewrite nexts_app, Hpre_nexts, Hr. cbn [challenge statusCode ended body headers].
      repeat split; try reflexivity; try assumption.
      eexists. split; [apply lookup_insert_eq | apply Hneg]. }
    destruct (String.eqb (SECURITY_STATUS ssc) "SEC_E_OK");
      destruct Hl as (Ht & Hr & _);
      (eexists; rewrite Ht, Hpre, <- app_assoc; split; [reflexivity|]; right;
       rewrite nexts_app, Hpre_nexts, Hr;
       cbn [with_authenticate statusCode ended body];
       repeat split; try assumption; discriminate).
Qed.

(** X5: in a handler that returns, the attachment of the session, the
    deletion of the context and the release of the slot go together: either
    the step returned SEC_E_OK, and then the handle it returned is deleted
    once, [release] is called once and the session is attached, or none of
    the three happens. *)
Theorem session_deletion_release_together opts req w w3 :
  middleware env opts req w = Returned tt w3 ->
  exists w2 evs,
    prelude env opts req w = Returned tt w2 /\
    trace w3 = trace w ++ evs /\
    ((exists a ssc,
        authorization req = Some a /\
        sspi_AcceptSecurityContext env (step_input env a w2) = inr ssc /\
        SECURITY_STATUS ssc = "SEC_E_OK" /\
        deletions evs = [contextHandle ssc] /\
        releases evs = 1%nat /\
        is_Some (req_sso w3))
     \/
     (deletions evs = [] /\ releases evs = 0%nat /\ req_sso w3 = req_sso w)).
Proof.
  intros Hreturned.
  at_header opts req w w2 pre. exists w2.
  destruct (middleware_paths _ _ _ _ Hprelude)
    as [[Hfalsy Hpath]|[(a & _ & _ & _ & w3' & Hrun & Hl)|(a & Hauth & _ & _ & w3' & Hrun & Hl)]].
  - destruct (slot_free (key (schManager w2)) (schManager w2)).
    + destruct Hpath as (w3' & Hrun & Ht & _ & _ & Hs & _).
      rewrite Hrun in Hreturned. injection Hreturned as <-.
      eexists. rewrite Ht, Hpre, <- app_assoc. split; [exact Hprelude|].
      split; [reflexivity|]. right.
      rewrite deletions_app, releases_app, Hpre_del, Hpre_rel, Hs. auto.
    + destruct Hpath as (w_wait & resume & Hrun & _). congruence.
  - destruct Hl as (Ht & _ & _ & Hs & _).
    rewrite Hrun in Hreturned. injection Hreturned as <-.
    eexists. rewrite Ht, Hpre, <- app_assoc. split; [exact Hprelude|].
    split; [reflexivity|]. right.
    rewrite deletions_app, releases_app, Hpre_del, Hpre_rel, Hs. auto.
  - rewrite Hrun in Hreturned. injection Hreturned as <-.
    destruct (sspi_AcceptSecurityContext env (step_input env a w2)) as [e|ssc] eqn:Hstep.
    { destruct Hl as (Ht & _ & _ & Hs & _).
      eexists. rewrite Ht, Hpre, <- app_assoc. split; [exact Hprelude|].
      split; [reflexivity|]. right.
      rewrite deletions_app, releases_app, Hpre_del, Hpre_rel, Hs. auto. }
    destruct (String.eqb (SECURITY_STATUS ssc) "SEC_I_CONTINUE_NEEDED").
    { destruct Hl as (Ht & _ & _ & Hs & _).
      eexists. rewrite Ht, Hpre, <- app_assoc. split; [exact Hprelude|].
      split; [reflexivity|]. right.
      rewrite deletions_app, releases_app, Hpre_del, Hpre_rel, Hs. auto. }
    destruct (String.eqb (SECURITY_STATUS ssc) "SEC_E_OK") eqn:Hok;
      destruct Hl as (Ht & _ & _ & Hs & _);
      (eexists; rewrite Ht, Hpre, <- app_assoc; split; [exact Hprelude|];
       split; [reflexivity|]).
    + left. exists a, ssc. apply String.eqb_eq in Hok.
      rewrite deletions_app, releases_app, Hpre_del, Hpre_rel, Hs.
      repeat split; try assumption; try reflexivity. eexists. reflexivity.
    + right. rewrite deletions_app, releases_app, Hpre_del, Hpre_rel, Hs. auto.
Qed.

(** X6: in a handler that returns, the provider's step is called at most
    once, only for a header that starts with [Negotiate ], and with the
    credential in force when the handler returns: the one renewed in this
    request when the old one had expired. *)
Theorem step_once_with_current_credential opts req w w3 :
  middleware env opts req w = Returned tt w3 ->
  exists w2 evs,
    prelude env opts req w = Returned tt w2 /\
    trace w3 = trace w ++ evs /\
    steps evs =
      match authorization req with
      | Some a => if startsWith a "Negotiate " then [step_input env a w2] else []
      | None => []
      end /\
    (forall input, In input (steps evs) -> in_credential input = credential w3) /\
    credential w3 =
      (if expired w
       then cwe_credential (sspi_AcquireCredentialsHandle env "Negotiate")
       else credential w).
Proof.
  intros Hreturned.
  at_header opts req w w2 pre. exists w2.
  assert (Hin : forall a c, c = credential w2 ->
            forall input, In input [step_input env a w2] -> in_credential input = c)
    by (intros a c -> input [<-|[]]; reflexivity).
  destruct (middleware_paths _ _ _ _ Hprelude)
    as [[Hfalsy Hpath]|[(a & Hauth & _ & Hp & w3' & Hrun & Hl)|(a & Hauth & _ & Hp & w3' & Hrun & Hl)]].
  - destruct (slot_free (key (schManager w2)) (schManager w2)).
    + destruct Hpath as (w3' & Hrun & Ht & _ & _ & _ & Hc & _).
      rewrite Hrun in Hreturned. injection Hreturned as <-.
      eexists. rewrite Ht, Hpre, <- app_assoc. split; [exact Hprelude|].
      split; [reflexivity|]. rewrite steps_app, Hpre_steps, Hc, Hcred. cbn [steps omap app].
      split; [|split; [intros ? []|reflexivity]].
      destruct (authorization req) as [[|c a]|]; [reflexivity|discriminate|reflexivity].
    + destruct Hpath as (w_wait & resume & Hrun & _). congruence.
  - destruct Hl as (Ht & _ & _ & _ & Hc & _).
    rewrite Hrun in Hreturned. injection Hreturned as <-.
    eexists. rewrite Ht, Hpre, <- app_assoc. split; [exact Hprelude|].
    split; [reflexivity|]. rewrite steps_app, Hpre_steps, Hc, Hcred, Hauth, Hp.
    cbn [steps omap app].
    split; [reflexivity|]. split; [intros ? []|reflexivity].
  - rewrite Hrun in Hreturned. injection Hreturned as <-.
    rewrite Hauth, Hp.
    destruct (sspi_AcceptSecurityContext env (step_input env a w2)) as [e|ssc].
    { destruct Hl as (Ht & _ & _ & _ & Hc & _).
      eexists. rewrite Ht, Hpre, <- app_assoc. split; [exact Hprelude|].
      split; [reflexivity|]. rewrite steps_app, Hpre_steps, Hc.
      split; [reflexivity|]. split; [apply Hin; reflexivity | exact Hcred]. }
    destruct (String.eqb (SECURITY_STATUS ssc) "SEC_I_CONTINUE_NEEDED").
    { destruct Hl as (Ht & _ & _ & _ & Hc & _).
      eexists. rewrite Ht, Hpre, <- app_assoc. split; [exact Hprelude|].
      split; [reflexivity|]. rewrite steps_app, Hpre_steps, Hc.
      split; [reflexivity|]. split; [apply Hin; reflexivity | exact Hcred]. }
    destruct (String.eqb (SECURITY_STATUS ssc) "SEC_E_OK");
      destruct Hl as (Ht & _ & _ & _ & Hc & _);
      (eexists; rewrite Ht, Hpre, <- app_assoc; split; [exact Hprelude|];
       split; [reflexivity|]; rewrite steps_app, Hpre_steps, Hc;
       split; [reflexivity|]; split; [apply Hin; reflexivity | exact Hcred]).
Qed.

(** X7: in a handler that returns, the credential is freed and acquired
    only by the renewal: once each, in this order, when the expiry had
    passed at the start of the request, and not at all otherwise,
    whichever way the request is answered. *)
Theorem credential_renewed_only_when_expired opts req w w3 :
  middleware env opts req w = Returned tt w3 ->
  exists evs,
    trace w3 = trace w ++ evs /\
    credential_calls evs =
      (if expired w
       then [EvFreeCredentialsHandle (credential w);
             EvAcquireCredentialsHandle "Negotiate"]
       else []).
Proof.
  intros Hreturned.
  at_header opts req w w2 pre.
  destruct (middleware_paths _ _ _ _ Hprelude)
    as [[Hfalsy Hpath]|[(a & _ & _ & _ & w3' & Hrun & Hl)|(a & _ & _ & _ & w3' & Hrun & Hl)]].
  - destruct (slot_free (key (schManager w2)) (schManager w2)).
    + destruct Hpath as (w3' & Hrun & Ht & _).
      rewrite Hrun in Hreturned. injection Hreturned as <-.
      eexists. rewrite Ht, Hpre, <- app_assoc. split; [reflexivity|].
      rewrite credential_calls_app, Hpre_cred. cbn [credential_calls List.filter].
      apply app_nil_r.
    + destruct Hpath as (w_wait & resume & Hrun & _). congruence.
  - destruct Hl as (Ht & _).
    rewrite Hrun in Hreturned. injection Hreturned as <-.
    eexists. rewrite Ht, Hpre, <- app_assoc. split; [reflexivity|].
    rewrite credential_calls_app, Hpre_cred. cbn [credential_calls List.filter].
    apply app_nil_r.
  - rewrite Hrun in Hreturned. injection Hreturned as <-.
    destruct (sspi_AcceptSecurityContext env (step_input env a w2)) as [e|ssc].
    { destruct Hl as (Ht & _).
      eexists. rewrite Ht, Hpre, <- app_assoc. split; [reflexivity|].
      rewrite credential_calls_app, Hpre_cred. cbn [credential_calls List.filter].
      apply app_nil_r. }
    destruct (String.eqb (SECURITY_STATUS ssc) "SEC_I_CONTINUE_NEEDED").
    { destruct Hl as (Ht & _).
      eexists. rewrite Ht, Hpre, <- app_assoc. split; [reflexivity|].
      rewrite credential_calls_app, Hpre_cred. cbn [credential_calls List.filter].
      apply app_nil_r. }
    destruct (String.eqb (SECURITY_STATUS ssc) "SEC_E_OK");
      destruct Hl as (Ht & _);
      (eexists; rewrite Ht, Hpre, <- app_assoc; split; [reflexivity|];
       rewrite credential_calls_app, Hpre_cred; cbn [credential_calls List.filter];
       apply app_nil_r).
Qed.

(** X1: [auth] throws the configuration error, without having called the
    provider, exactly when the options give useCookies as true and leave
    useActiveDirectory out or give it as true; a middleware that [auth]
    returns was built after one acquisition of the credential for
    Negotiate, and holds the merged options, never with both modes on,
    that credential with its expiry, and a manager whose table is empty. *)
Theorem auth_conflict_error_iff options :
  (auth env options = ([], inl (Error conflict_message)) <->
   useCookies options = Bool true /\
   (useActiveDirectory options = Absent \/ useActiveDirectory options = Bool true)) /\
  forall calls mw,
    auth env options = (calls, inr mw) ->
    calls = [EvAcquireCredentialsHandle "Negotiate"] /\
    opts mw = Object_assign default_opts options /\
    initial_credential mw =
      cwe_credential (sspi_AcquireCredentialsHandle env "Negotiate") /\
    initial_tsExpiry mw =
      cwe_tsExpiry (sspi_AcquireCredentialsHandle env "Negotiate") /\
    table (initial_schManager mw) = ∅ /\
    (truthy (useCookies (opts mw)) = true ->
     truthy (useActiveDirectory (opts mw)) = false).
Proof.
  unfold auth.
  destruct (truthy (useActiveDirectory (Object_assign default_opts options))
            && truthy (useCookies (Object_assign default_opts options))) eqn:Hconflict.
  - split; [|intros calls mw; discriminate].
    split; [intros _|reflexivity].
    apply andb_true_iff in Hconflict as [Had Hck]. revert Had Hck.
    unfold Object_assign. cbn [useCookies useActiveDirectory default_opts].
    destruct (useCookies options) as [| |[|]], (useActiveDirectory options) as [| |[|]];
      cbn [assign_prop truthy]; intros; try discriminate; auto.
  - split.
    + split; [discriminate|]. intros [Hck Had]. revert Hconflict.
      unfold Object_assign. cbn [useCookies useActiveDirectory default_opts].
      rewrite Hck. destruct Had as [Had|Had]; rewrite Had; discriminate.
    + intros calls mw [= <- <-]. cbn [opts initial_credential initial_tsExpiry
                                       initial_schManager].
      repeat split.
      intros Hck. rewrite Hck, andb_true_r in Hconflict. exact Hconflict.
Qed.


(** X14: an [authorization] header that is the empty string is handled as
    no header at all: with the same cookie the two requests are handled in
    the same way, suspension included. *)
Theorem empty_header_is_no_header opts req1 req2 w :
  authorization req1 = None ->
  authorization req2 = Some "" ->
  cookie req1 = cookie req2 ->
  middleware env opts req1 w = middleware env opts req2 w /\
  falsy (authorization req2) = true.
Proof.
  intros Hnone Hempty Hcookie. split; [|rewrite Hempty; reflexivity].
  unfold middleware, try_block, prelude, schManager_setCookieMode.
  rewrite Hnone, Hempty, Hcookie. reflexivity.
Qed.

(** What a [try] block that does not throw has done: it logged no error,
    and called [next] only in the branch of the malformed header, which
    it leaves by [return]. *)
Lemma try_block_returned opts req w c w' :
  try_block env opts req w = Returned c w' ->
  exists evs,
    trace w' = trace w ++ evs /\
    logged_errors evs = [] /\
    match c with
    | FallThrough => nexts evs = []
    | ReturnStmt =>
        nexts evs = [] \/
        exists a,
          authorization req = Some a /\
          startsWith a "Negotiate " = false /\
          nexts evs = [Some (createError 400 ("Malformed authentication token " +:+ a))]
    end.
Proof.
  at_header opts req w w2 pre.
  rewrite (run_try_block _ _ _ _ _ Hprelude).
  destruct (falsy (authorization req)) eqn:Hfalsy.
  { rewrite run_no_authorization. cbn zeta.
    destruct (slot_free _ _); [|discriminate].
    intros [= <- <-]. eexists.
    cbn [trace log_event log_debug with_res]. rewrite Hpre, <- !app_assoc.
    split; [reflexivity|].
    rewrite logged_errors_app, nexts_app, Hpre_err, Hpre_nexts. cbn. auto. }
  destruct (authorization req) as [a|] eqn:Hauth; [|discriminate].
  cbn [from_option id].
  destruct (startsWith a "Negotiate ") eqn:Hprefix; cbn [negb].
  2:{ unfold malformed. run. intros [= <- <-]. eexists.
      cbn [trace log_event]. rewrite Hpre, <- !app_assoc.
      split; [reflexivity|].
      rewrite logged_errors_app, nexts_app, Hpre_err, Hpre_nexts.
      split; [reflexivity|]. right. exists a. auto. }
  rewrite run_negotiate.
  destruct (sspi_AcceptSecurityContext env (step_input env a w2)) as [e|ssc] eqn:Hstep;
    [discriminate|].
  destruct (String.eqb (SECURITY_STATUS ssc) "SEC_I_CONTINUE_NEEDED").
  { rewrite run_continue_needed. intros [= <- <-]. eexists.
    cbn [trace log_event log_debug with_res with_schManager after_step at_step].
    rewrite Hpre, <- !app_assoc.
    split; [reflexivity|].
    rewrite logged_errors_app, nexts_app, Hpre_err, Hpre_nexts. cbn. auto. }
  destruct (String.eqb (SECURITY_STATUS ssc) "SEC_E_OK").
  { rewrite (run_completed _ _ _ _ _ (contextHandle ssc))
      by (cbn [after_step schManager with_schManager log_debug]; apply mgr_get_set).
    intros [= <- <-]. eexists.
    cbn [trace log_event log_debug with_res with_schManager with_req_sso
         after_step at_step].
    rewrite Hpre, <- !app_assoc.
    split; [reflexivity|].
    rewrite logged_errors_app, nexts_app, Hpre_err, Hpre_nexts. cbn. auto. }
  run. intros [= <- <-]. eexists.
  cbn [trace log_event log_debug with_res with_schManager after_step at_step].
  rewrite Hpre, <- !app_assoc.
  split; [reflexivity|].
  rewrite logged_errors_app, nexts_app, Hpre_err, Hpre_nexts. cbn. auto.
Qed.

(** X15: in a handler that returns, a [try] block that did not throw
    means no [console.error] and at most one call of [next] in the whole
    request: when the block falls off its end, the trailing [next()] is
    the only one; when it is left by [return], the handler adds nothing,
    and [next] has been called either not at all or once, with the 400
    error that names a malformed header. *)
Theorem next_once_unless_try_throws opts req w c w' w3 :
  try_block env opts req w = Returned c w' ->
  middleware env opts req w = Returned tt w3 ->
  exists evs,
    trace w3 = trace w ++ evs /\
    logged_errors evs = [] /\
    (length (nexts evs) <= 1)%nat /\
    match c with
    | FallThrough => trace w3 = trace w' ++ [EvNext None] /\ nexts evs = [None]
    | ReturnStmt =>
        w3 = w' /\
        (nexts evs = [] \/
         exists a,
           authorization req = Some a /\
           startsWith a "Negotiate " = false /\
           nexts evs = [Some (createError 400 ("Malformed authentication token " +:+ a))])
    end.
Proof.
  intros Htry.
  destruct (try_block_returned _ _ _ _ _ Htry) as (evs & Htrace & Herr & Hnexts).
  rewrite run_middleware, Htry. run.
  destruct c.
  - run. intros [= <-]. exists (evs ++ [EvNext None]).
    cbn [trace log_event]. rewrite Htrace, <- app_assoc.
    split; [reflexivity|].
    rewrite logged_errors_app, nexts_app, Herr, Hnexts. cbn. auto.
  - unfold mret, M_ret, ret; cbn beta iota.
    intros [= <-]. exists evs. split; [exact Htrace|].
    split; [exact Herr|].
    split; [|split; [reflexivity | exact Hnexts]].
    destruct Hnexts as [->|(a & _ & _ & ->)]; cbn; lia.
Qed.

End Paths.

(** ** The handshake of [connect] *)

Section ConnectLoop.
Import Connect.
Variable sspi : Sspi.

Lemma initializations_app cs1 cs2 :
  initializations (cs1 ++ cs2) = initializations cs1 ++ initializations cs2.
Proof. apply omap_app. Qed.

Lemma acceptances_app cs1 cs2 :
  acceptances (cs1 ++ cs2) = acceptances cs1 ++ acceptances cs2.
Proof. apply omap_app. Qed.

Lemma errors_app cs1 cs2 : errors (cs1 ++ cs2) = errors cs1 ++ errors cs2.
Proof. apply omap_app. Qed.

Ltac read_calls :=
  cbn [calls i clientInput serverInput serverSecurityContext clientSecurityContext];
  rewrite ?initializations_app, ?acceptances_app, ?errors_app;
  cbn [initializations acceptances errors omap app];
  rewrite ?app_nil_r, <- ?app_assoc.

Lemma iteration_continue st st' :
  iteration sspi st = Continue st' ->
  exists cin csc ssc,
    round_done sspi st st' cin csc ssc /\ SECURITY_STATUS ssc <> "SEC_E_OK".
Proof.
  unfold iteration.
  destruct (client_input st) as [e0|cin] eqn:Hcin; [discriminate|].
  destruct (InitializeSecurityContext sspi (i st) cin) as [e0|csc] eqn:Hinit;
    [discriminate|].
  destruct (continue_or_ok (SECURITY_STATUS csc)) eqn:Hc; cbn [negb]; [|discriminate].
  destruct (AcceptSecurityContext sspi (i st) (server_input st csc)) as [e0|ssc] eqn:Hacc;
    [discriminate|].
  destruct (continue_or_ok (SECURITY_STATUS ssc)) eqn:Hs; cbn [negb];
    [|destruct (String.eqb (SECURITY_STATUS ssc) "SEC_E_LOGON_DENIED"); discriminate].
  destruct (String.eqb (SECURITY_STATUS ssc) "SEC_E_OK") eqn:Hok; cbn [negb];
    [discriminate|].
  intros [= <-]. exists cin, csc, ssc. split; [|now apply String.eqb_neq].
  unfold round_done. read_calls.
  repeat split; try assumption; try reflexivity. eexists. reflexivity.
Qed.

Lemma iteration_break st st' :
  iteration sspi st = Break st' ->
  exists cin csc ssc,
    round_done sspi st st' cin csc ssc /\ SECURITY_STATUS ssc = "SEC_E_OK".
Proof.
  unfold iteration.
  destruct (client_input st) as [e0|cin] eqn:Hcin; [discriminate|].
  destruct (InitializeSecurityContext sspi (i st) cin) as [e0|csc] eqn:Hinit;
    [discriminate|].
  destruct (continue_or_ok (SECURITY_STATUS csc)) eqn:Hc; cbn [negb]; [|discriminate].
  destruct (AcceptSecurityContext sspi (i st) (server_input st csc)) as [e0|ssc] eqn:Hacc;
    [discriminate|].
  destruct (continue_or_ok (SECURITY_STATUS ssc)) eqn:Hs; cbn [negb];
    [|destruct (String.eqb (SECURITY_STATUS ssc) "SEC_E_LOGON_DENIED"); discriminate].
  destruct (String.eqb (SECURITY_STATUS ssc) "SEC_E_OK") eqn:Hok; cbn [negb];
    [|discriminate].
  intros [= <-]. exists cin, csc, ssc. split; [|now apply String.eqb_eq].
  unfold round_done. read_calls.
  repeat split; try assumption; try reflexivity. eexists. reflexivity.
Qed.

(** Why an iteration throws. *)
Lemma iteration_throw st e st' :
  iteration sspi st = Throw e st' ->
  errors (calls st') = errors (calls st) /\
  (exists more, calls st' = calls st ++ more) /\
  ((client_input st = inl e /\
    initializations (calls st') = initializations (calls st) /\
    acceptances (calls st') = acceptances (calls st))
   \/
   (exists cin,
      client_input st = inr cin /\
      initializations (calls st') = initializations (calls st) ++ [cin] /\
      acceptances (calls st') = acceptances (calls st) /\
      (InitializeSecurityContext sspi (i st) cin = inl e \/
       exists csc,
         InitializeSecurityContext sspi (i st) cin = inr csc /\
         continue_or_ok (SECURITY_STATUS csc) = false /\
         e = Error errorMsg))
   \/
   (exists cin csc,
      client_input st = inr cin /\
      InitializeSecurityContext sspi (i st) cin = inr csc /\
      continue_or_ok (SECURITY_STATUS csc) = true /\
      initializations (calls st') = initializations (calls st) ++ [cin] /\
      acceptances (calls st') = acceptances (calls st) ++ [server_input st csc] /\
      (AcceptSecurityContext sspi (i st) (server_input st csc) = inl e \/
       exists ssc,
         AcceptSecurityContext sspi (i st) (server_input st csc) = inr ssc /\
         continue_or_ok (SECURITY_STATUS ssc) = false /\
         e = Error (if String.eqb (SECURITY_STATUS ssc) "SEC_E_LOGON_DENIED"
                    then badLoginPasswordMsg else errorMsg)))).
Proof.
  unfold iteration.
  destruct (client_input st) as [e0|cin] eqn:Hcin.
  { intros [= <- <-]. read_calls.
    split; [reflexivity|]. split; [eexists; reflexivity|]. left. auto. }
  destruct (InitializeSecurityContext sspi (i st) cin) as [e0|csc] eqn:Hinit.
  { intros [= <- <-]. read_calls.
    split; [reflexivity|]. split; [eexists; reflexivity|].
    right. left. exists cin. auto 10. }
  destruct (continue_or_ok (SECURITY_STATUS csc)) eqn:Hc; cbn [negb].
  2:{ intros [= <- <-]. read_calls.
      split; [reflexivity|]. split; [eexists; reflexivity|].
      right. left. exists cin. repeat split; try reflexivity.
      right. exists csc. auto. }
  destruct (AcceptSecurityContext sspi (i st) (server_input st csc)) as [e0|ssc] eqn:Hacc.
  { intros [= <- <-]. read_calls.
    split; [reflexivity|]. split; [eexists; reflexivity|].
    right. right. exists cin, csc. auto 10. }
  destruct (continue_or_ok (SECURITY_STATUS ssc)) eqn:Hs; cbn [negb].
  { destruct (String.eqb (SECURITY_STATUS ssc) "SEC_E_OK"); discriminate. }
  destruct (String.eqb (SECURITY_STATUS ssc) "SEC_E_LOGON_DENIED") eqn:Hd;
    intros [= <- <-]; read_calls;
    (split; [reflexivity|]; split; [eexists; reflexivity|];
     right; right; exists cin, csc; repeat split; try assumption; try reflexivity;
     right; exists ssc; rewrite Hd; auto).
Qed.

Lemma client_input_role u st cin :
  client_role sspi u (clientInput st) ->
  client_input st = inr cin ->
  client_role sspi u cin.
Proof.
  unfold client_input, client_role.
  destruct (serverSecurityContext st); [destruct (clientSecurityContext st)|];
    intros Hrole [= <-]; exact Hrole.
Qed.

Lemma client_input_defined u st :
  between_rounds sspi u st -> exists cin, client_input st = inr cin.
Proof.
  intros (_ & _ & Hboth & _). unfold client_input.
  destruct (serverSecurityContext st) as [ssc|]; [|eauto].
  destruct (Hboth (ex_intro _ ssc eq_refl)) as [csc ->]. eauto.
Qed.

Lemma before_loop_between u : between_rounds sspi u (before_loop sspi u).
Proof.
  unfold between_rounds, before_loop, client_role, server_role.
  cbn. repeat split; try reflexivity; try constructor.
  - intros [x Hx]. discriminate.
  - exists []. reflexivity.
Qed.

Lemma round_keeps_between u st st' cin csc ssc :
  between_rounds sspi u st ->
  round_done sspi st st' cin csc ssc ->
  between_rounds sspi u st'.
Proof.
  intros (Hc & Hs & Hboth & Hzero & Hni & Hna & Herr & Hfi & Hfa & more & Hcalls)
         (Hcin & _ & _ & _ & _ & Hi & Hci & Hsi & Hssc & Hcsc & Hinits & Haccs & Herrs
              & more' & Hcalls').
  assert (Hrole : client_role sspi u cin) by (eapply client_input_role; eassumption).
  assert (Hsrole : server_role sspi (server_input st csc)) by exact Hs.
  unfold between_rounds.
  rewrite Hci, Hsi, Hssc, Hcsc, Hi, Hinits, Haccs, Herrs, !length_app, Hni, Hna.
  cbn [length].
  split; [exact Hrole|]. split; [exact Hsrole|].
  split; [intros _; eexists; reflexivity|].
  split; [discriminate|].
  split; [lia|]. split; [lia|]. split; [exact Herr|].
  split; [apply Forall_app; split; [exact Hfi | constructor; [exact Hrole | constructor]]|].
  split; [apply Forall_app; split; [exact Hfa | constructor; [exact Hsrole | constructor]]|].
  exists (more ++ more'). rewrite Hcalls', Hcalls, <- app_assoc. reflexivity.
Qed.

Lemma after_rounds_between u k st st_k :
  between_rounds sspi u st ->
  after_rounds sspi k st = Some st_k ->
  between_rounds sspi u st_k /\ i st_k = (i st + k)%nat.
Proof.
  revert st. induction k as [|k IH]; intros st Hb; cbn [after_rounds].
  - intros [= <-]. split; [exact Hb | lia].
  - destruct (iteration sspi st) as [st'| |] eqn:Hit; try discriminate.
    intros Hk. destruct (iteration_continue _ _ Hit) as (cin & csc & ssc & Hdone & _).
    destruct (IH st' (round_keeps_between _ _ _ _ _ _ Hb Hdone) Hk) as [Hb' Hi'].
    split; [exact Hb'|]. destruct Hdone as (_ & _ & _ & _ & _ & Hi & _). lia.
Qed.

(** A loop that ends has gone through some rounds that continue, and then
    one that breaks or throws. *)
Lemma loop_decompose fuel st r :
  loop sspi fuel st = Some r ->
  exists k st_k,
    (k < fuel)%nat /\
    after_rounds sspi k st = Some st_k /\
    match r with
    | inr st' => iteration sspi st_k = Break st'
    | inl (e, st') => iteration sspi st_k = Throw e st'
    end.
Proof.
  revert st. induction fuel as [|fuel IH]; intros st; cbn [loop]; [discriminate|].
  destruct (iteration sspi st) as [st'|st'|e st'] eqn:Hit.
  - intros Hloop. destruct (IH _ Hloop) as (k & st_k & Hlt & Hk & Hr).
    exists (S k), st_k. split; [lia|]. split; [|exact Hr].
    cbn [after_rounds]. rewrite Hit. exact Hk.
  - intros [= <-]. exists 0%nat, st. split; [lia|]. split; [reflexivity | exact Hit].
  - intros [= <-]. exists 0%nat, st. split; [lia|]. split; [reflexivity | exact Hit].
Qed.

Lemma loop_fuel_monotone fuel fuel' st r :
  loop sspi fuel st = Some r ->
  (fuel <= fuel')%nat ->
  loop sspi fuel' st = Some r.
Proof.
  revert fuel' st. induction fuel as [|fuel IH]; intros fuel' st; cbn [loop];
    [discriminate|].
  intros Hloop Hle. destruct fuel' as [|fuel']; [lia|]. cbn [loop].
  destruct (iteration sspi st); [apply IH; [exact Hloop | lia] | exact Hloop | exact Hloop].
Qed.

(** How a call of [connect] that returns has ended: after some rounds that
    continue, by a round that throws, or by a round in which the server
    answers SEC_E_OK, followed by the check of the user. *)
Lemma connect_cases fuel u out :
  connect sspi fuel u = Some out ->
  exists k st,
    (k < fuel)%nat /\
    after_rounds sspi k (before_loop sspi u) = Some st /\
    between_rounds sspi u st /\
    i st = k /\
    ((exists e st',
        iteration sspi st = Throw e st' /\
        returned out = None /\
        made out = calls st' ++ [CallConsoleError e])
     \/
     (exists st' cin csc ssc,
        round_done sspi st st' cin csc ssc /\
        SECURITY_STATUS ssc = "SEC_E_OK" /\
        between_rounds sspi u st' /\
        returned out =
          (if is_guest (SSO_user sspi (contextHandle ssc)) then None
           else Some {| sso_contextHandle := contextHandle ssc;
                        sso_user := SSO_user sspi (contextHandle ssc) |}) /\
        made out =
          calls st' ++ [CallNewSSO (contextHandle ssc)] ++
            (if is_guest (SSO_user sspi (contextHandle ssc))
             then [CallConsoleError (Error badLoginPasswordMsg)] else []))).
Proof.
  unfold connect.
  destruct (loop sspi fuel (before_loop sspi u)) as [r|] eqn:Hloop; [|discriminate].
  destruct (loop_decompose _ _ _ Hloop) as (k & st & Hlt & Hk & Hr).
  destruct (after_rounds_between u _ _ _ (before_loop_between u) Hk) as [Hb Hi].
  intros Hout. exists k, st. split; [exact Hlt|]. split; [exact Hk|].
  split; [exact Hb|]. split; [exact Hi|].
  destruct r as [[e st']|st'].
  - left. exists e, st'. injection Hout as <-. auto.
  - right. destruct (iteration_break _ _ Hr) as (cin & csc & ssc & Hdone & Hok).
    exists st', cin, csc, ssc. split; [exact Hdone|]. split; [exact Hok|].
    split; [eapply round_keeps_between; eassumption|].
    injection Hout as <-. unfold after_loop.
    destruct Hdone as (_ & _ & _ & _ & _ & _ & _ & _ & -> & _).
    cbn [sso_user].
    destruct (is_guest (SSO_user sspi (contextHandle ssc)));
      cbn [returned made caught calls]; rewrite <- ?app_assoc; auto.
Qed.

(** A call of [connect] that has returned with some bound on the
    iterations of its loop returns the same with every larger bound. *)
Lemma connect_fuel_monotone fuel fuel' u out :
  connect sspi fuel u = Some out ->
  (fuel <= fuel')%nat ->
  connect sspi fuel' u = Some out.
Proof.
  unfold connect.
  destruct (loop sspi fuel (before_loop sspi u)) as [r|] eqn:Hloop; [|discriminate].
  intros Hout Hle. rewrite (loop_fuel_monotone _ _ _ _ Hloop Hle). exact Hout.
Qed.

(** X9: in a call of [connect] that returns, the two roles never mix:
    every client step is asked with the credential acquired for the user,
    the target [kiki] and the token size of the package, every server step
    with the credential acquired without identity; the three calls before
    the loop come first, and the client has been asked as often as the
    server or once more. *)
Theorem connect_roles_never_mix fuel u out :
  connect sspi fuel u = Some out ->
  Forall (client_role sspi u) (initializations (made out)) /\
  Forall (server_role sspi) (acceptances (made out)) /\
  (length (acceptances (made out)) <= length (initializations (made out))
     <= S (length (acceptances (made out))))%nat /\
  exists more,
    made out =
      [CallQuerySecurityPackageInfo "Negotiate";
       CallAcquireCredentialsHandle
         {| packageName := "Negotiate";
            authData := Some {| domain := domain u; user := user u;
                                password := password u |} |};
       CallAcquireCredentialsHandle {| packageName := "Negotiate"; authData := None |}]
      ++ more.
Proof.
  intros Hconnect.
  destruct (connect_cases _ _ _ Hconnect)
    as (k & st & _ & _ & Hb & _ & [(e & st' & Hit & _ & Hmade)
                                  |(st' & cin & csc & ssc & _ & _ & Hb' & _ & Hmade)]).
  - destruct Hb as (Hc & Hs & _ & _ & Hni & Hna & _ & Hfi & Hfa & more & Hcalls).
    destruct (iteration_throw _ _ _ Hit) as (_ & (more' & Hmore) & Hcase).
    rewrite Hmade, initializations_app, acceptances_app.
    cbn [initializations acceptances omap]. rewrite !app_nil_r.
    assert (Hprefix : exists more0,
              calls st' ++ [CallConsoleError e] =
                [CallQuerySecurityPackageInfo "Negotiate";
                 CallAcquireCredentialsHandle
                   {| packageName := "Negotiate";
                      authData := Some {| domain := domain u; user := user u;
                                          password := password u |} |};
                 CallAcquireCredentialsHandle
                   {| packageName := "Negotiate"; authData := None |}] ++ more0)
      by (eexists; rewrite Hmore, Hcalls, <- !app_assoc; reflexivity).
    destruct Hcase as [(_ & -> & ->)
                      |[(cin & Hcin & -> & -> & _)
                       |(cin & csc & Hcin & _ & _ & -> & -> & _)]].
    + repeat split; try assumption; lia.
    + assert (client_role sspi u cin) by (eapply client_input_role; eassumption).
      rewrite !length_app. cbn [length].
      repeat split; try assumption; try lia.
      apply Forall_app; split; [assumption | constructor; [assumption | constructor]].
    + assert (client_role sspi u cin) by (eapply client_input_role; eassumption).
      assert (server_role sspi (server_input st csc)) by exact Hs.
      rewrite !length_app. cbn [length].
      repeat split; try assumption; try lia.
      * apply Forall_app; split; [assumption | constructor; [assumption | constructor]].
      * apply Forall_app; split; [assumption | constructor; [assumption | constructor]].
  - destruct Hb' as (_ & _ & _ & _ & Hni & Hna & _ & Hfi & Hfa & more & Hcalls).
    rewrite Hmade, !initializations_app, !acceptances_app.
    assert (Hi : initializations
                   (if is_guest (SSO_user sspi (contextHandle ssc))
                    then [CallConsoleError (Error badLoginPasswordMsg)] else []) = [])
      by (destruct (is_guest _); reflexivity).
    assert (Ha : acceptances
                   (if is_guest (SSO_user sspi (contextHandle ssc))
                    then [CallConsoleError (Error badLoginPasswordMsg)] else []) = [])
      by (destruct (is_guest _); reflexivity).
    rewrite Hi, Ha. cbn [initializations acceptances omap app]. rewrite !app_nil_r.
    repeat split; try assumption; try lia.
    eexists. rewrite Hcalls, <- !app_assoc. reflexivity.
Qed.

(** X10: [connect] returns an SSO object only for a completed handshake:
    no error has been logged, the last answer of the server, in the round
    of the last calls, has status SEC_E_OK, the object is built on the
    handle of that answer, and its user is not named Guest; client and
    server have been asked the same number of times. *)
Theorem connect_returns_completed_context fuel u out sso :
  connect sspi fuel u = Some out ->
  returned out = Some sso ->
  errors (made out) = [] /\
  is_guest (sso_user sso) = false /\
  sso_user sso = SSO_user sspi (sso_contextHandle sso) /\
  exists round sin ssc,
    length (initializations (made out)) = S round /\
    length (acceptances (made out)) = S round /\
    last (acceptances (made out)) = Some sin /\
    AcceptSecurityContext sspi round sin = inr ssc /\
    SECURITY_STATUS ssc = "SEC_E_OK" /\
    sso_contextHandle sso = contextHandle ssc.
Proof.
  intros Hconnect Hreturned.
  destruct (connect_cases _ _ _ Hconnect)
    as (k & st & _ & _ & Hb & Hik & [(e & st' & _ & Hnone & _)
                                    |(st' & cin & csc & ssc & Hdone & Hok & Hb' & Hret & Hmade)]);
    [congruence|].
  rewrite Hreturned in Hret.
  destruct (is_guest (SSO_user sspi (contextHandle ssc))) eqn:Hguest; [discriminate|].
  injection Hret as ->. cbn [sso_user sso_contextHandle].
  destruct Hb' as (_ & _ & _ & _ & Hni & Hna & Herr & _).
  destruct Hdone as (_ & _ & _ & Hacc & _ & Hi & _ & _ & _ & _ & _ & Haccs & _).
  rewrite Hmade, !errors_app, !initializations_app, !acceptances_app, Herr.
  cbn [errors initializations acceptances omap app]. rewrite !app_nil_r.
  split; [reflexivity|]. split; [exact Hguest|]. split; [reflexivity|].
  exists (i st), (server_input st csc), ssc.
  rewrite Hni, Hna, Hi, Haccs, last_snoc. auto 10.
Qed.

(** X11: when [connect] returns [undefined], exactly one error has been
    logged, by the last call, and it tells why: a step of the provider
    threw it; or it is the generic message, for an answer of the client or
    of the server whose status is neither CONTINUE_NEEDED nor OK; or it is
    the wrong-login message, for an answer SEC_E_LOGON_DENIED of the server
    or for a completed handshake whose user is named Guest. *)
Theorem connect_undefined_reasons fuel u out :
  connect sspi fuel u = Some out ->
  returned out = None ->
  exists e round,
    errors (made out) = [e] /\
    last (made out) = Some (CallConsoleError e) /\
    length (initializations (made out)) = S round /\
    ((exists cin,
        last (initializations (made out)) = Some cin /\
        length (acceptances (made out)) = round /\
        (InitializeSecurityContext sspi round cin = inl e \/
         exists csc,
           InitializeSecurityContext sspi round cin = inr csc /\
           continue_or_ok (SECURITY_STATUS csc) = false /\
           e = Error errorMsg))
     \/
     (exists sin,
        last (acceptances (made out)) = Some sin /\
        length (acceptances (made out)) = S round /\
        (AcceptSecurityContext sspi round sin = inl e \/
         exists ssc,
           AcceptSecurityContext sspi round sin = inr ssc /\
           ((continue_or_ok (SECURITY_STATUS ssc) = false /\
             e = Error (if String.eqb (SECURITY_STATUS ssc) "SEC_E_LOGON_DENIED"
                        then badLoginPasswordMsg else errorMsg))
            \/
            (SECURITY_STATUS ssc = "SEC_E_OK" /\
             is_guest (SSO_user sspi (contextHandle ssc)) = true /\
             e = Error badLoginPasswordMsg))))).
Proof.
  intros Hconnect Hreturned.
  destruct (connect_cases _ _ _ Hconnect)
    as (k & st & _ & _ & Hb & Hik & [(e & st' & Hit & _ & Hmade)
                                    |(st' & cin & csc & ssc & Hdone & Hok & Hb' & Hret & Hmade)]).
  - destruct (iteration_throw _ _ _ Hit) as (Herrs & _ & Hcase).
    pose proof Hb as (_ & _ & _ & _ & Hni & Hna & Herr & _).
    exists e, (i st).
    rewrite Hmade, errors_app, initializations_app, acceptances_app, Herrs, Herr,
      last_snoc.
    cbn [errors initializations acceptances omap app]. rewrite !app_nil_r.
    split; [reflexivity|]. split; [reflexivity|].
    destruct Hcase as [(Hcin & _)
                      |[(cin & Hcin & -> & -> & Hwhy)
                       |(cin & csc & Hcin & Hinit & Hc & -> & -> & Hwhy)]].
    + destruct (client_input_defined _ _ Hb) as (cin & Hdef). congruence.
    + rewrite length_app, Hni, last_snoc. cbn [length].
      split; [lia|]. left. exists cin. split; [reflexivity|]. split; [exact Hna|].
      exact Hwhy.
    + rewrite !length_app, Hni, Hna, !last_snoc. cbn [length].
      split; [lia|]. right. exists (server_input st csc).
      split; [reflexivity|]. split; [lia|].
      destruct Hwhy as [Hthrew|(ssc & Hacc & Hs & ->)]; [left; exact Hthrew|].
      right. exists ssc. split; [exact Hacc|]. left. auto.
  - rewrite Hreturned in Hret.
    destruct (is_guest (SSO_user sspi (contextHandle ssc))) eqn:Hguest; [|discriminate].
    destruct Hb' as (_ & _ & _ & _ & Hni & Hna & Herr & _).
    destruct Hdone as (_ & _ & _ & Hacc & _ & Hi & _ & _ & _ & _ & _ & Haccs & _).
    exists (Error badLoginPasswordMsg), (i st).
    rewrite Hmade, !errors_app, !initializations_app, !acceptances_app, Herr.
    cbn [errors initializations acceptances omap app]. rewrite !app_nil_r.
    split; [reflexivity|].
    split; [rewrite last_app; reflexivity|].
    rewrite Hni, Hna, Hi, Haccs, last_snoc.
    split; [reflexivity|]. right. exists (server_input st csc).
    split; [reflexivity|]. split; [reflexivity|].
    right. exists ssc. split; [exact Hacc|]. right. auto.
Qed.

(** X12: the loop of [connect] has no bound of its own: while the client
    answers CONTINUE_NEEDED or OK and the server answers CONTINUE_NEEDED,
    [connect] is still in its loop after any number of iterations. *)
Theorem connect_loops_while_server_continues u :
  (forall round input, exists csc,
     InitializeSecurityContext sspi round input = inr csc /\
     continue_or_ok (SECURITY_STATUS csc) = true) ->
  (forall round input, exists ssc,
     AcceptSecurityContext sspi round input = inr ssc /\
     SECURITY_STATUS ssc = "SEC_I_CONTINUE_NEEDED") ->
  forall fuel, connect sspi fuel u = None.
Proof.
  intros Hclient Hserver fuel.
  assert (Hloop : forall st, between_rounds sspi u st -> loop sspi fuel st = None).
  { induction fuel as [|fuel IH]; intros st Hb; cbn [loop]; [reflexivity|].
    assert (Hcont : exists st', iteration sspi st = Continue st').
    { unfold iteration.
      destruct (client_input_defined _ _ Hb) as (cin & ->).
      destruct (Hclient (i st) cin) as (csc & -> & ->). cbn [negb].
      destruct (Hserver (i st) (server_input st csc)) as (ssc & -> & ->).
      cbn. eexists. reflexivity. }
    destruct Hcont as (st' & Hit). rewrite Hit.
    destruct (iteration_continue _ _ Hit) as (cin & csc & ssc & Hdone & _).
    apply IH. eapply round_keeps_between; eassumption. }
  unfold connect. rewrite (Hloop _ (before_loop_between u)). reflexivity.
Qed.

(** *** The chain of the answers *)

Lemma client_fed_more inits accs inits' accs' r cin :
  client_fed sspi inits accs r cin ->
  client_fed sspi (inits ++ inits') (accs ++ accs') r cin.
Proof.
  destruct r as [|r']; [exact (fun H => H)|].
  intros (cin' & sin' & csc' & ssc' & Hi & Ha & Hrest).
  exists cin', sin', csc', ssc'.
  split; [apply lookup_app_l_Some; exact Hi|].
  split; [apply lookup_app_l_Some; exact Ha|]. exact Hrest.
Qed.

Lemma server_fed_more inits accs inits' accs' r sin :
  server_fed sspi inits accs r sin ->
  server_fed sspi (inits ++ inits') (accs ++ accs') r sin.
Proof.
  intros [(cin & csc & Hi & Hrest) Hprev]. split.
  - exists cin, csc. split; [apply lookup_app_l_Some; exact Hi | exact Hrest].
  - destruct r as [|r']; [exact Hprev|].
    destruct Hprev as (sin' & ssc' & Ha & Hrest').
    exists sin', ssc'. split; [apply lookup_app_l_Some; exact Ha | exact Hrest'].
Qed.

(** The input the loop builds for the client in a new round. *)
Lemma new_client_fed st cin :
  answers_kept sspi st ->
  client_input st = inr cin ->
  client_fed sspi (initializations (calls st)) (acceptances (calls st)) (i st) cin.
Proof.
  intros [_ Hkept] Hcin. unfold client_input in Hcin.
  destruct (i st) as [|r'].
  - destruct Hkept as (Hnone & Hs & Hh & _). rewrite Hnone in Hcin.
    injection Hcin as <-. split; assumption.
  - destruct Hkept as (cin' & sin' & csc' & ssc' & Hi & Ha & Hinit' & Hacc' & Hs & Hc).
    rewrite Hs, Hc in Hcin. injection Hcin as <-.
    exists cin', sin', csc', ssc'. cbn [init_serverSecurityContext init_contextHandle].
    auto 10.
Qed.

(** The input the loop builds for the server on the client's answer. *)
Lemma new_server_fed u st cin csc :
  between_rounds sspi u st ->
  answers_kept sspi st ->
  InitializeSecurityContext sspi (i st) cin = inr csc ->
  server_fed sspi (initializations (calls st) ++ [cin]) (acceptances (calls st))
    (i st) (server_input st csc).
Proof.
  intros Hb [_ Hkept] Hinit.
  pose proof Hb as (_ & _ & _ & _ & Hni & _).
  split.
  - exists cin, csc.
    split; [rewrite lookup_app_r by lia; rewrite Hni, Nat.sub_diag; reflexivity|].
    split; [exact Hinit | reflexivity].
  - unfold server_input. cbn [accept_contextHandle].
    destruct (i st) as [|r'].
    + destruct Hkept as (Hnone & _ & _ & Ha). rewrite Hnone. exact Ha.
    + destruct Hkept as (cin' & sin' & csc' & ssc' & _ & Ha & _ & Hacc' & Hs & _).
      rewrite Hs. exists sin', ssc'. auto.
Qed.

Lemma chained_client inits accs cin :
  chained sspi inits accs ->
  client_fed sspi inits accs (length inits) cin ->
  chained sspi (inits ++ [cin]) accs.
Proof.
  intros [Hclient Hserver] Hnew. split.
  - intros r cin0 Hi. rewrite <- (app_nil_r accs). apply client_fed_more.
    apply lookup_app_Some in Hi as [Hi|[Hge Hi]]; [apply Hclient; exact Hi|].
    destruct (r - length inits)%nat as [|n] eqn:Hr; [|discriminate].
    injection Hi as <-. replace r with (length inits) by lia. exact Hnew.
  - intros r sin Ha. rewrite <- (app_nil_r accs). apply server_fed_more, Hserver.
    exact Ha.
Qed.

Lemma chained_server inits accs sin :
  chained sspi inits accs ->
  server_fed sspi inits accs (length accs) sin ->
  chained sspi inits (accs ++ [sin]).
Proof.
  intros [Hclient Hserver] Hnew. split.
  - intros r cin Hi. rewrite <- (app_nil_r inits). apply client_fed_more, Hclient.
    exact Hi.
  - intros r sin0 Ha. rewrite <- (app_nil_r inits). apply server_fed_more.
    apply lookup_app_Some in Ha as [Ha|[Hge Ha]]; [apply Hserver; exact Ha|].
    destruct (r - length accs)%nat as [|n] eqn:Hr; [|discriminate].
    injection Ha as <-. replace r with (length accs) by lia. exact Hnew.
Qed.

(** The two steps of a round extend the chain. *)
Lemma chained_round u st cin csc :
  between_rounds sspi u st ->
  answers_kept sspi st ->
  client_input st = inr cin ->
  InitializeSecurityContext sspi (i st) cin = inr csc ->
  chained sspi (initializations (calls st) ++ [cin])
    (acceptances (calls st) ++ [server_input st csc]).
Proof.
  intros Hb Hkept Hcin Hinit.
  pose proof Hb as (_ & _ & _ & _ & Hni & Hna & _).
  apply chained_server.
  - apply chained_client; [apply Hkept|].
    rewrite Hni. apply new_client_fed; assumption.
  - rewrite Hna. eapply new_server_fed; eassumption.
Qed.

Lemma before_loop_answers u : answers_kept sspi (before_loop sspi u).
Proof.
  split; [split; intros r x Hx; discriminate|]. cbn. auto.
Qed.

Lemma round_keeps_answers u st st' cin csc ssc :
  between_rounds sspi u st ->
  answers_kept sspi st ->
  round_done sspi st st' cin csc ssc ->
  answers_kept sspi st'.
Proof.
  intros Hb Hkept Hdone.
  pose proof Hb as (_ & _ & _ & _ & Hni & Hna & _).
  pose proof Hdone as (Hcin & Hinit & _ & Hacc & _ & Hi & _ & _ & Hssc & Hcsc
                            & Hinits & Haccs & _).
  split.
  - rewrite Hinits, Haccs. eapply chained_round; eassumption.
  - rewrite Hi, Hinits, Haccs.
    exists cin, (server_input st csc), csc, ssc.
    split; [rewrite lookup_app_r by lia; rewrite Hni, Nat.sub_diag; reflexivity|].
    split; [rewrite lookup_app_r by lia; rewrite Hna, Nat.sub_diag; reflexivity|].
    auto.
Qed.

Lemma after_rounds_answers u k st st_k :
  between_rounds sspi u st ->
  answers_kept sspi st ->
  after_rounds sspi k st = Some st_k ->
  answers_kept sspi st_k.
Proof.
  revert st. induction k as [|k IH]; intros st Hb Hkept; cbn [after_rounds].
  - intros [= <-]. exact Hkept.
  - destruct (iteration sspi st) as [st'| |] eqn:Hit; try discriminate.
    destruct (iteration_continue _ _ Hit) as (cin & csc & ssc & Hdone & _).
    apply IH.
    + eapply round_keeps_between; eassumption.
    + eapply round_keeps_answers; eassumption.
Qed.

(** X13: in a call of [connect] that returns, the steps are chained, the
    last ones included.  Every call of the client's step: in the first
    round without an answer of the server and without a handle, in every
    later round with the answer the server gave in the round before and
    the handle of the client's own answer of that round.  Every call of
    the server's step: with the answer the client gave in the same round,
    in the first round without a handle, in every later round with the
    handle of the server's own answer of the round before. *)
Theorem connect_rounds_are_chained fuel u out :
  connect sspi fuel u = Some out ->
  chained sspi (initializations (made out)) (acceptances (made out)).
Proof.
  intros Hconnect.
  destruct (connect_cases _ _ _ Hconnect)
    as (k & st & _ & Hk & Hb & _ & [(e & st' & Hit & _ & Hmade)
                                   |(st' & cin & csc & ssc & Hdone & _ & _ & _ & Hmade)]).
  - pose proof (after_rounds_answers u _ _ _ (before_loop_between u)
                  (before_loop_answers u) Hk) as Hkept.
    pose proof Hb as (_ & _ & _ & _ & Hni & Hna & _).
    destruct (iteration_throw _ _ _ Hit) as (_ & _ & Hcase).
    rewrite Hmade, initializations_app, acceptances_app.
    cbn [initializations acceptances omap]. rewrite !app_nil_r.
    destruct Hcase as [(_ & -> & ->)
                      |[(cin & Hcin & -> & -> & _)
                       |(cin & csc & Hcin & Hinit & _ & -> & -> & _)]].
    + apply Hkept.
    + apply chained_client; [apply Hkept|].
      rewrite Hni. apply new_client_fed; assumption.
    + eapply chained_round; eassumption.
  - pose proof (after_rounds_answers u _ _ _ (before_loop_between u)
                  (before_loop_answers u) Hk) as Hkept.
    pose proof (round_keeps_answers _ _ _ _ _ _ Hb Hkept Hdone) as [Hchained _].
    rewrite Hmade, !initializations_app, !acceptances_app.
    assert (Hi : initializations
                   (if is_guest (SSO_user sspi (contextHandle ssc))
                    then [CallConsoleError (Error badLoginPasswordMsg)] else []) = [])
      by (destruct (is_guest _); reflexivity).
    assert (Ha : acceptances
                   (if is_guest (SSO_user sspi (contextHandle ssc))
                    then [CallConsoleError (Error badLoginPasswordMsg)] else []) = [])
      by (destruct (is_guest _); reflexivity).
    rewrite Hi, Ha. cbn [initializations acceptances omap app]. rewrite !app_nil_r.
    exact Hchained.
Qed.

End ConnectLoop.

(** ** The further properties on examples *)

Lemma malformed_header_is_rejected_witness :
  authorization malformed_request = Some "Basic YWxpY2U6c2VjcmV0" /\
  "Basic YWxpY2U6c2VjcmV0" <> "" /\
  startsWith "Basic YWxpY2U6c2VjcmV0" "Negotiate " = false /\
  exists w2 w3,
    prelude (example_env completing) default_opts malformed_request example_world
      = Returned tt w2 /\
    middleware (example_env completing) default_opts malformed_request example_world
      = Returned tt w3 /\
    trace w3 =
      trace w2 ++
        [EvNext (Some (createError 400
           ("Malformed authentication token " +:+ "Basic YWxpY2U6c2VjcmV0")))] /\
    res w3 = res w2 /\ schManager w3 = schManager w2 /\ req_sso w3 = req_sso w2.
Proof.
  split; [reflexivity|]. split; [discriminate|]. split; [reflexivity|].
  apply (malformed_header_is_rejected (example_env completing) default_opts
           malformed_request "Basic YWxpY2U6c2VjcmV0" example_world);
    [reflexivity | discriminate | reflexivity].
Defined.

Lemma answers_or_passes_witness :
  renewing_run = Returned tt (final_world renewing_run) /\
  exists evs,
    trace (final_world renewing_run) = trace expired_world ++ evs /\
    ((nexts evs = [] /\
      statusCode (res (final_world renewing_run)) = 401 /\
      ended (res (final_world renewing_run)) = true /\
      body (res (final_world renewing_run)) = body (res expired_world) /\
      exists value,
        headers (res (final_world renewing_run)) !! "WWW-Authenticate" = Some value /\
        startsWith value "Negotiate" = true)
     \/
     (nexts evs <> [] /\
      statusCode (res (final_world renewing_run)) = statusCode (res expired_world) /\
      ended (res (final_world renewing_run)) = ended (res expired_world) /\
      body (res (final_world renewing_run)) = body (res expired_world))).
Proof.
  split; [vm_compute; reflexivity|].
  apply (answers_or_passes (example_env completing) default_opts first_leg
           expired_world (final_world renewing_run)).
  vm_compute. reflexivity.
Defined.

Lemma session_deletion_release_together_witness :
  completing_run = Returned tt (final_world completing_run) /\
  exists w2 evs,
    prelude (example_env completing) default_opts second_leg (second_leg_world completing)
      = Returned tt w2 /\
    trace (final_world completing_run) = trace (second_leg_world completing) ++ evs /\
    ((exists a ssc,
        authorization second_leg = Some a /\
        sspi_AcceptSecurityContext (example_env completing)
          (step_input (example_env completing) a w2) = inr ssc /\
        SECURITY_STATUS ssc = "SEC_E_OK" /\
        deletions evs = [contextHandle ssc] /\
        releases evs = 1%nat /\
        is_Some (req_sso (final_world completing_run)))
     \/
     (deletions evs = [] /\ releases evs = 0%nat /\
      req_sso (final_world completing_run) = req_sso (second_leg_world completing))).
Proof.
  split; [vm_compute; reflexivity|].
  apply (session_deletion_release_together (example_env completing) default_opts
           second_leg (second_leg_world completing) (final_world completing_run)).
  vm_compute. reflexivity.
Defined.

Lemma step_once_with_current_credential_witness :
  renewing_run = Returned tt (final_world renewing_run) /\
  expired expired_world = true /\
  exists w2 evs,
    prelude (example_env completing) default_opts first_leg expired_world
      = Returned tt w2 /\
    trace (final_world renewing_run) = trace expired_world ++ evs /\
    steps evs =
      match authorization first_leg with
      | Some a =>
          if startsWith a "Negotiate "
          then [step_input (example_env completing) a w2] else []
      | None => []
      end /\
    (forall input, In input (steps evs) ->
       in_credential input = credential (final_world renewing_run)) /\
    credential (final_world renewing_run) =
      (if expired expired_world
       then cwe_credential
              (sspi_AcquireCredentialsHandle (example_env completing) "Negotiate")
       else credential expired_world).
Proof.
  split; [vm_compute; reflexivity|]. split; [reflexivity|].
  apply (step_once_with_current_credential (example_env completing) default_opts
           first_leg expired_world (final_world renewing_run)).
  vm_compute. reflexivity.
Defined.

Lemma credential_renewed_only_when_expired_witness :
  renewing_run = Returned tt (final_world renewing_run) /\
  exists evs,
    trace (final_world renewing_run) = trace expired_world ++ evs /\
    credential_calls evs =
      (if expired expired_world
       then [EvFreeCredentialsHandle (credential expired_world);
             EvAcquireCredentialsHandle "Negotiate"]
       else []).
Proof.
  split; [vm_compute; reflexivity|].
  apply (credential_renewed_only_when_expired (example_env completing) default_opts
           first_leg expired_world (final_world renewing_run)).
  vm_compute. reflexivity.
Defined.


Lemma auth_conflict_error_iff_witness :
  auth (example_env completing) cookies_only = ([], inl (Error conflict_message)) /\
  ~ (useCookies cookies_with_undefined_directory = Bool true /\
     (useActiveDirectory cookies_with_undefined_directory = Absent \/
      useActiveDirectory cookies_with_undefined_directory = Bool true)) /\
  auth (example_env completing) cookies_with_undefined_directory
    <> ([], inl (Error conflict_message)) /\
  exists calls mw,
    auth (example_env completing) cookies_without_directory = (calls, inr mw) /\
    calls = [EvAcquireCredentialsHandle "Negotiate"] /\
    opts mw = Object_assign default_opts cookies_without_directory /\
    initial_credential mw =
      cwe_credential (sspi_AcquireCredentialsHandle (example_env completing) "Negotiate") /\
    initial_tsExpiry mw =
      cwe_tsExpiry (sspi_AcquireCredentialsHandle (example_env completing) "Negotiate") /\
    table (initial_schManager mw) = ∅ /\
    (truthy (useCookies (opts mw)) = true ->
     truthy (useActiveDirectory (opts mw)) = false).
Proof.
  split.
  { apply (proj2 (proj1 (auth_conflict_error_iff (example_env completing) cookies_only))).
    split; [reflexivity | left; reflexivity]. }
  assert (Hnot : ~ (useCookies cookies_with_undefined_directory = Bool true /\
                    (useActiveDirectory cookies_with_undefined_directory = Absent \/
                     useActiveDirectory cookies_with_undefined_directory = Bool true)))
    by (intros [_ [H|H]]; discriminate H).
  split; [exact Hnot|].
  split.
  { intros Hthrown. apply Hnot.
    exact (proj1 (proj1 (auth_conflict_error_iff (example_env completing)
                           cookies_with_undefined_directory)) Hthrown). }
  eexists. eexists. split; [reflexivity|].
  apply (proj2 (auth_conflict_error_iff (example_env completing)
                  cookies_without_directory)).
  reflexivity.
Defined.

Lemma empty_header_is_no_header_witness :
  authorization request_without_header = None /\
  authorization request_with_empty_header = Some "" /\
  cookie request_without_header = cookie request_with_empty_header /\
  middleware (example_env completing) default_opts request_without_header example_world
    = middleware (example_env completing) default_opts request_with_empty_header
        example_world /\
  falsy (authorization request_with_empty_header) = true.
Proof.
  split; [reflexivity|]. split; [reflexivity|]. split; [reflexivity|].
  apply (empty_header_is_no_header (example_env completing) default_opts
           request_without_header request_with_empty_header example_world);
    reflexivity.
Defined.

Lemma next_once_unless_try_throws_witness :
  try_block (example_env completing) default_opts second_leg (second_leg_world completing)
    = Returned FallThrough (final_world completing_block) /\
  completing_run = Returned tt (final_world completing_run) /\
  exists evs,
    trace (final_world completing_run) = trace (second_leg_world completing) ++ evs /\
    logged_errors evs = [] /\
    (length (nexts evs) <= 1)%nat /\
    trace (final_world completing_run)
      = trace (final_world completing_block) ++ [EvNext None] /\
    nexts evs = [None].
Proof.
  split; [vm_compute; reflexivity|]. split; [vm_compute; reflexivity|].
  apply (next_once_unless_try_throws (example_env completing) default_opts
           second_leg (second_leg_world completing) FallThrough
           (final_world completing_block) (final_world completing_run));
    vm_compute; reflexivity.
Defined.

Section ConnectExamples.
Import Connect.

Lemma connect_roles_never_mix_witness :
  connect accepted_sspi 2 example_user_credential = Some accepted_outcome /\
  Forall (client_role accepted_sspi example_user_credential)
    (initializations (made accepted_outcome)) /\
  Forall (server_role accepted_sspi) (acceptances (made accepted_outcome)) /\
  (length (acceptances (made accepted_outcome))
     <= length (initializations (made accepted_outcome))
     <= S (length (acceptances (made accepted_outcome))))%nat /\
  exists more,
    made accepted_outcome =
      [CallQuerySecurityPackageInfo "Negotiate";
       CallAcquireCredentialsHandle
         {| packageName := "Negotiate";
            authData := Some {| domain := domain example_user_credential;
                                user := user example_user_credential;
                                password := password example_user_credential |} |};
       CallAcquireCredentialsHandle {| packageName := "Negotiate"; authData := None |}]
      ++ more.
Proof.
  split; [vm_compute; reflexivity|].
  apply (connect_roles_never_mix accepted_sspi 2 example_user_credential
           accepted_outcome).
  vm_compute. reflexivity.
Defined.

Lemma connect_returns_completed_context_witness :
  connect accepted_sspi 2 example_user_credential = Some accepted_outcome /\
  returned accepted_outcome =
    Some {| sso_contextHandle := 22%nat; sso_user := user_named "alice" |} /\
  errors (made accepted_outcome) = [] /\
  is_guest (user_named "alice") = false /\
  user_named "alice" = SSO_user accepted_sspi 22%nat /\
  exists round sin ssc,
    length (initializations (made accepted_outcome)) = S round /\
    length (acceptances (made accepted_outcome)) = S round /\
    last (acceptances (made accepted_outcome)) = Some sin /\
    AcceptSecurityContext accepted_sspi round sin = inr ssc /\
    SECURITY_STATUS ssc = "SEC_E_OK" /\
    22%nat = contextHandle ssc.
Proof.
  split; [vm_compute; reflexivity|]. split; [vm_compute; reflexivity|].
  apply (connect_returns_completed_context accepted_sspi 2 example_user_credential
           accepted_outcome
           {| sso_contextHandle := 22%nat; sso_user := user_named "alice" |});
    vm_compute; reflexivity.
Defined.

Lemma connect_undefined_reasons_witness :
  connect guest_sspi 1 example_user_credential = Some guest_outcome /\
  returned guest_outcome = None /\
  exists e round,
    errors (made guest_outcome) = [e] /\
    last (made guest_outcome) = Some (CallConsoleError e) /\
    length (initializations (made guest_outcome)) = S round /\
    ((exists cin,
        last (initializations (made guest_outcome)) = Some cin /\
        length (acceptances (made guest_outcome)) = round /\
        (InitializeSecurityContext guest_sspi round cin = inl e \/
         exists csc,
           InitializeSecurityContext guest_sspi round cin = inr csc /\
           continue_or_ok (SECURITY_STATUS csc) = false /\
           e = Error errorMsg))
     \/
     (exists sin,
        last (acceptances (made guest_outcome)) = Some sin /\
        length (acceptances (made guest_outcome)) = S round /\
        (AcceptSecurityContext guest_sspi round sin = inl e \/
         exists ssc,
           AcceptSecurityContext guest_sspi round sin = inr ssc /\
           ((continue_or_ok (SECURITY_STATUS ssc) = false /\
             e = Error (if String.eqb (SECURITY_STATUS ssc) "SEC_E_LOGON_DENIED"
                        then badLoginPasswordMsg else errorMsg))
            \/
            (SECURITY_STATUS ssc = "SEC_E_OK" /\
             is_guest (SSO_user guest_sspi (contextHandle ssc)) = true /\
             e = Error badLoginPasswordMsg))))).
Proof.
  split; [vm_compute; reflexivity|]. split; [vm_compute; reflexivity|].
  apply (connect_undefined_reasons guest_sspi 1 example_user_credential guest_outcome);
    vm_compute; reflexivity.
Defined.

Lemma connect_loops_while_server_continues_witness :
  (forall round input, exists csc,
     InitializeSecurityContext endless_sspi round input = inr csc /\
     continue_or_ok (SECURITY_STATUS csc) = true) /\
  (forall round input, exists ssc,
     AcceptSecurityContext endless_sspi round input = inr ssc /\
     SECURITY_STATUS ssc = "SEC_I_CONTINUE_NEEDED") /\
  forall fuel, connect endless_sspi fuel example_user_credential = None.
Proof.
  split; [intros round input; eexists; split; reflexivity|].
  split; [intros round input; eexists; split; reflexivity|].
  apply (connect_loops_while_server_continues endless_sspi example_user_credential);
    intros round input; eexists; split; reflexivity.
Defined.

Lemma connect_rounds_are_chained_witness :
  connect accepted_sspi 2 example_user_credential = Some accepted_outcome /\
  length (initializations (made accepted_outcome)) = 2%nat /\
  length (acceptances (made accepted_outcome)) = 2%nat /\
  chained accepted_sspi (initializations (made accepted_outcome))
    (acceptances (made accepted_outcome)).
Proof.
  split; [vm_compute; reflexivity|].
  split; [vm_compute; reflexivity|]. split; [vm_compute; reflexivity|].
  apply (connect_rounds_are_chained accepted_sspi 2 example_user_credential
           accepted_outcome).
  vm_compute. reflexivity.
Defined.

End ConnectExamples.
